(** * Stardust: the host thread of the shared-memory particle simulation

    A shallow embedding of [www/main.mjs]: the computation of the worker-pool
    size, the allocation of the shared world store, the message handler that
    wraps every worker, the start-up handshake with the logic workers and the
    render worker, and the per-frame tick barrier.

    The embedding starts after the capability check of lines 3-12: it
    describes a platform on which [SharedArrayBuffer] exists, so that the
    module body gets past line 12; the warning of lines 14-16 is the first
    thing it may do.  Each turn of
    the host's event loop (a message event, an animation frame) is one step
    of [handle_event]; the continuations of the two top-level [await]s run at
    the end of the turn that settles the awaited promise, as microtasks do.
    The code of the workers and of [ui.mjs] is not part of the embedding: the
    workers appear as the messages they send and as the stores they make to
    [world.workersRunning]. *)

From Stdlib Require Import ZArith QArith Lia.
From stdpp Require Import base gmap strings list pretty.

Local Open Scope Z_scope.

(** ** JavaScript numbers *)

Module JS.

(** A Number: [NaN], an infinity, or a finite value.  Finite doubles are
    rationals; the embedding performs no rounding arithmetic on them, it only
    tests them for zero, sign and integrality and truncates them. *)
Inductive number : Type :=
  | NaN
  | Infinity (negative : bool)
  | Finite (q : Q).

Definition of_Z (z : Z) : number := Finite (inject_Z z).
Definition of_nat (n : nat) : number := of_Z (Z.of_nat n).

(** ToBoolean on a Number: [NaN], [+0] and [-0] are falsy. *)
Definition ToBoolean (n : number) : bool :=
  match n with
  | NaN => false
  | Infinity _ => true
  | Finite q => negb (Qeq_bool q 0)
  end.

(** A Number other than [NaN], [+0] and [-0]. *)
Definition nonzero (n : number) : Prop :=
  match n with
  | NaN => False
  | Infinity _ => True
  | Finite q => ~ (q == 0)%Q
  end.

(** [a || b] on Numbers. *)
Definition or (a b : number) : number := if ToBoolean a then a else b.

(** Truncation towards zero of a finite value. *)
Definition truncate (q : Q) : Z := Z.quot (Qnum q) (Zpos (Qden q)).

(** ToUint32: non-finite values go to 0, finite ones are truncated and
    reduced modulo 2^32. *)
Definition ToUint32 (n : number) : Z :=
  match n with
  | Finite q => truncate q mod 2 ^ 32
  | _ => 0
  end.

(** Reinterpretation of a residue modulo [2^bits] as a signed integer. *)
Definition signed (bits : Z) (z : Z) : Z :=
  let r := z mod 2 ^ bits in
  if r <? 2 ^ (bits - 1) then r else r - 2 ^ bits.

(** ToInt32. *)
Definition ToInt32 (n : number) : Z := signed 32 (ToUint32 n).

(** The Number is below zero. *)
Definition negative (n : number) : Prop :=
  match n with
  | NaN => False
  | Infinity s => s = true
  | Finite q => (q < 0)%Q
  end.

(** [Array(len)] called with one Number: the length of the new array, or
    [None] for the RangeError thrown when ToUint32(len) differs from len. *)
Definition Array_length (len : number) : option nat :=
  match len with
  | Finite q =>
      if Qeq_bool (inject_Z (ToUint32 len)) q
      then Some (Z.to_nat (ToUint32 len))
      else None
  | _ => None
  end.

Inductive error : Type :=
  | RangeError
  | TypeError
  | Error (message : string)
  | WorkerConstructionError.  (* whatever [new Worker(...)] threw *)

End JS.

Export JS (number, NaN, Infinity, Finite).

(** ** Typed arrays over zero-filled shared buffers *)

(** A typed array is its element type, its length and its cells.  A fresh
    [SharedArrayBuffer] is zero-filled, whatever its size, so the cells are a
    total function that starts as the constant 0; a read outside
    [0, length) yields [None] (JavaScript's [undefined]). *)
Module TypedArray.

Inductive kind : Type := Int32 | Uint8 | Uint32 | BigInt64 | BigUint64.

(** The value a cell of each element type holds after storing [z]. *)
Definition wrap (k : kind) (z : Z) : Z :=
  match k with
  | Int32 => JS.signed 32 z
  | Uint8 => z mod 2 ^ 8
  | Uint32 => z mod 2 ^ 32
  | BigInt64 => JS.signed 64 z
  | BigUint64 => z mod 2 ^ 64
  end.

Record t : Type := make {
  elements : kind;
  length : N;
  cells : N -> Z;
}.

(** [new K(new SharedArrayBuffer(n * K.BYTES_PER_ELEMENT))] *)
Definition alloc (k : kind) (n : N) : t :=
  {| elements := k; length := n; cells := fun _ => 0 |}.

Definition get (a : t) (i : N) : option Z :=
  if (i <? length a)%N then Some (cells a i) else None.

(** [a[i] = v]; a store outside the array is ignored. *)
Definition set (a : t) (i : N) (v : Z) : t :=
  if (i <? length a)%N
  then {| elements := elements a; length := length a;
          cells := fun j => if (j =? i)%N then wrap (elements a) v else cells a j |}
  else a.

(** [Array.prototype.fill.call(a, v)]: every index below the length is
    set to [v]. *)
Definition fill (a : t) (v : Z) : t :=
  {| elements := elements a; length := length a;
     cells := fun _ => wrap (elements a) v |}.

(** [Atomics.compareExchange(a, i, expected, replacement)] for an index
    inside the array: the old value is returned, and the cell is replaced when
    the old value equals [expected] (both operands converted to the element
    type). *)
Definition compareExchange (a : t) (i : N) (expected replacement : Z) : Z * t :=
  let old := cells a i in
  (old, if old =? wrap (elements a) expected then set a i replacement else a).

(** [Atomics.add(a, i, v)] for an index inside the array: the old value is
    returned and the sum stored, wrapped to the element type. *)
Definition add (a : t) (i : N) (v : Z) : Z * t :=
  let old := cells a i in
  (old, set a i (old + v)).

End TypedArray.

(** ** The pool size (lines 23-31) *)

(** What the browser hands to the module: the [coreOverride] entry of
    localStorage ([None] when the key is absent, otherwise the stored string,
    given by the Number that unary plus makes of it), the value of
    [navigator.hardwareConcurrency] ([None] where the platform has no such
    property, otherwise the unsigned integer it reports), for each worker
    the module creates whether its constructor returns ([true]) or throws, and
    whether [Atomics.waitAsync] exists (it is tested at line 14). *)
Record Env : Type := {
  coreOverride : option number;
  hardwareConcurrency : option Z;
  logicWorkerConstructs : nat -> bool;
  renderWorkerConstructs : bool;
  Atomics_waitAsync : bool;
}.

Definition defaultHardwareConcurrency : Z := 4.
Definition reservedCores : Z := 2.

(** [+localStorage.coreOverride]: an absent key reads as [undefined], which
    unary plus turns into [NaN]. *)
Definition unary_plus (stored : option number) : number :=
  match stored with
  | None => NaN
  | Some n => n
  end.

(** [navigator.hardwareConcurrency || defaultHardwareConcurrency] *)
Definition concurrency (env : Env) : Z :=
  match hardwareConcurrency env with
  | Some h => if h =? 0 then defaultHardwareConcurrency else h
  | None => defaultHardwareConcurrency
  end.

Definition availableCores (env : Env) : number :=
  JS.or (unary_plus (coreOverride env))
        (JS.of_Z (Z.max 1 (concurrency env - reservedCores))).

(** ** The shared world store (lines 33-77) *)

Record Resolution : Type := { x : N; y : N }.

Definition maxScreenRes : Resolution := {| x := 3840; y := 2160 |}.
Definition totalPixels : N := x maxScreenRes * y maxScreenRes.

(** The integer-valued per-particle arrays.  The Float32 arrays of the
    source (initiative, velocity, subpixelPosition, mass, temperature) are
    left out: the host never reads or writes them. *)
Record Particles : Type := {
  particles_lock : TypedArray.t;
  particles_type : TypedArray.t;
  particles_tick : TypedArray.t;
  particles_abgr : TypedArray.t;
  particles_scratch1 : TypedArray.t;
  particles_scratch2 : TypedArray.t;
}.

Record World : Type := {
  lock : TypedArray.t;
  tick : TypedArray.t;
  workersRunning : TypedArray.t;
  bounds_x : TypedArray.t;
  bounds_y : TypedArray.t;
  wrappingBehaviour : TypedArray.t;
  particles : Particles;
}.

(** The object literal of lines 38-73. *)
Definition world_alloc : World :=
  {| lock := TypedArray.alloc TypedArray.Int32 1;
     tick := TypedArray.alloc TypedArray.BigInt64 1;
     workersRunning := TypedArray.alloc TypedArray.Int32 1;
     bounds_x := TypedArray.alloc TypedArray.Int32 1;
     bounds_y := TypedArray.alloc TypedArray.Int32 1;
     wrappingBehaviour := TypedArray.alloc TypedArray.Uint8 4;
     particles :=
       {| particles_lock := TypedArray.alloc TypedArray.Int32 totalPixels;
          particles_type := TypedArray.alloc TypedArray.Uint8 totalPixels;
          particles_tick := TypedArray.alloc TypedArray.BigInt64 totalPixels;
          particles_abgr := TypedArray.alloc TypedArray.Uint32 totalPixels;
          particles_scratch1 := TypedArray.alloc TypedArray.BigUint64 totalPixels;
          particles_scratch2 := TypedArray.alloc TypedArray.BigUint64 totalPixels |} |}.

Definition set_wrappingBehaviour (a : TypedArray.t) (w : World) : World :=
  {| lock := lock w; tick := tick w; workersRunning := workersRunning w;
     bounds_x := bounds_x w; bounds_y := bounds_y w;
     wrappingBehaviour := a; particles := particles w |}.

Definition set_workersRunning (a : TypedArray.t) (w : World) : World :=
  {| lock := lock w; tick := tick w; workersRunning := a;
     bounds_x := bounds_x w; bounds_y := bounds_y w;
     wrappingBehaviour := wrappingBehaviour w; particles := particles w |}.

Definition set_tick (a : TypedArray.t) (w : World) : World :=
  {| lock := lock w; tick := a; workersRunning := workersRunning w;
     bounds_x := bounds_x w; bounds_y := bounds_y w;
     wrappingBehaviour := wrappingBehaviour w; particles := particles w |}.

(** Particle types 0 and 1, as the comment of line 77 names them. *)
Definition AIR : Z := 0.
Definition WALL : Z := 1.

(** The world once line 77 has run:
    [Array.prototype.fill.call(world.wrappingBehaviour, 1)]. *)
Definition world_init : World :=
  set_wrappingBehaviour (TypedArray.fill (wrappingBehaviour world_alloc) 1) world_alloc.

(** ** Messages, workers and what the host does to the outside *)

Inductive value : Type :=
  | VUndefined
  | VNumber (n : number)
  | VString (s : string)
  | VWorld.  (* the [world] object, passed by shared-memory handle *)

(** The [data] of a message event, destructured as [{type, data, error}]:
    [data] is an array or absent, [error] is [VUndefined] when absent. *)
Record message : Type := {
  type : string;
  data : option (list value);
  error : value;
}.

Definition defined (v : value) : bool :=
  match v with VUndefined => false | _ => true end.

Inductive worker : Type :=
  | LogicWorker (i : nat)
  | RenderWorker.

Inductive level : Type := log | info | warn | error_level.

(** Everything the host does that is visible outside its own variables, in
    the order it does it. *)
Inductive effect : Type :=
  | postMessage (to : worker) (type : string) (data : list value)
  | console (l : level) (args : list value)
  | notify_tick                              (* Atomics.notify(world.tick, 0) *)
  | software_failure (reason : string)       (* document.body.innerHTML = ... *)
  | bindWorldToDisplay                       (* the call into ui.mjs *)
  | uncaught (e : JS.error).                 (* an exception leaving a listener *)

Inductive promise : Type := Pending | Fulfilled | Rejected.

Definition settled (p : promise) : bool :=
  match p with Pending => false | _ => true end.

(** [resolve(worker)]: only a pending promise changes. *)
Definition resolve (p : promise) : promise :=
  match p with Pending => Fulfilled | _ => p end.

(** Where the evaluation of the module body stands. *)
Inductive stage : Type :=
  | AwaitingLogicCores      (* suspended at line 152 *)
  | AwaitingRenderCore      (* suspended at line 191 *)
  | Bound                   (* ran to the end, line 206 *)
  | Thrown (e : JS.error).  (* left by an exception *)

Record Host : Type := {
  availableCores_const : number;       (* [availableCores] *)
  world : World;
  pendingLogicCores : list promise;
  pendingRenderCore : option promise;  (* [None]: line 132 was never reached *)
  at_stage : stage;
  frameLoop : bool;                    (* [advanceTick] is registered for the next frame *)
  effects : list effect;
}.

Definition emit (e : list effect) (h : Host) : Host :=
  {| availableCores_const := availableCores_const h; world := world h;
     pendingLogicCores := pendingLogicCores h;
     pendingRenderCore := pendingRenderCore h; at_stage := at_stage h;
     frameLoop := frameLoop h; effects := effects h ++ e |}.

Definition set_world (w : World) (h : Host) : Host :=
  {| availableCores_const := availableCores_const h; world := w;
     pendingLogicCores := pendingLogicCores h;
     pendingRenderCore := pendingRenderCore h; at_stage := at_stage h;
     frameLoop := frameLoop h; effects := effects h |}.

Definition set_pendingLogicCores (ps : list promise) (h : Host) : Host :=
  {| availableCores_const := availableCores_const h; world := world h;
     pendingLogicCores := ps;
     pendingRenderCore := pendingRenderCore h; at_stage := at_stage h;
     frameLoop := frameLoop h; effects := effects h |}.

Definition set_pendingRenderCore (p : option promise) (h : Host) : Host :=
  {| availableCores_const := availableCores_const h; world := world h;
     pendingLogicCores := pendingLogicCores h;
     pendingRenderCore := p; at_stage := at_stage h;
     frameLoop := frameLoop h; effects := effects h |}.

Definition set_stage (s : stage) (h : Host) : Host :=
  {| availableCores_const := availableCores_const h; world := world h;
     pendingLogicCores := pendingLogicCores h;
     pendingRenderCore := pendingRenderCore h; at_stage := s;
     frameLoop := frameLoop h; effects := effects h |}.

Definition set_frameLoop (b : bool) (h : Host) : Host :=
  {| availableCores_const := availableCores_const h; world := world h;
     pendingLogicCores := pendingLogicCores h;
     pendingRenderCore := pendingRenderCore h; at_stage := at_stage h;
     frameLoop := b; effects := effects h |}.

(** ** Callbacks and the listener of [wrapForCallbacks] (lines 85-108) *)

(** The functions stored in the callback tables. *)
Inductive callback : Type :=
  | pong                      (* val => { console.log('pong', val) } *)
  | ready_logic (i : nat)     (* the [ready] closure of logic worker [i] *)
  | ready_render.             (* the [ready] closure of the render worker *)

Record callbacks : Type := {
  ok : gmap string callback;
  err : gmap string callback;
}.

(** The default, shared tables of lines 87-90. *)
Definition shared_callbacks : callbacks :=
  {| ok := <["pong" := pong]> (<["hello" := pong]> ∅); err := ∅ |}.

(** The tables handed to [wrapForCallbacks] at lines 118-127 and 139-147. *)
Definition logic_callbacks (i : nat) : callbacks :=
  {| err := err shared_callbacks;
     ok := <["ready" := ready_logic i]> (ok shared_callbacks) |}.

Definition render_callbacks : callbacks :=
  {| err := err shared_callbacks;
     ok := <["ready" := ready_render]> (ok shared_callbacks) |}.

(** The tables are built by object literals, so they inherit from
    [Object.prototype]; a key that is not an own property may still be found
    there. *)
Definition Object_prototype : list string :=
  [ "constructor"; "__defineGetter__"; "__defineSetter__"; "hasOwnProperty";
    "__lookupGetter__"; "__lookupSetter__"; "isPrototypeOf";
    "propertyIsEnumerable"; "toString"; "valueOf"; "__proto__";
    "toLocaleString" ].

Inductive property : Type :=
  | Own (cb : callback)
  | Inherited
  | Missing.

(** [table[key]] *)
Definition get_property (table : gmap string callback) (key : string) : property :=
  match table !! key with
  | Some cb => Own cb
  | None => if bool_decide (key ∈ Object_prototype) then Inherited else Missing
  end.

(** How a listener run ends: it returns or it throws. *)
Inductive completion : Type :=
  | Normal
  | Throw (e : JS.error).

(** Of the values a message can carry, only the world is an Object. *)
Definition is_object (v : value) : bool :=
  match v with VWorld => true | _ => false end.

(** [callback(...args)] at line 104 when [callback] was found on
    [Object.prototype].  The call is a plain one in module code, so the member
    runs with [this] undefined:
    - [__proto__] is an accessor; reading it from the table gives the
      table's prototype, an object that is not a function, and the call
      throws a TypeError;
    - [constructor] is [Object], which returns an object for any argument,
      and [toString] returns ["[object Undefined]"]: both return;
    - [isPrototypeOf] returns [false] at once when its first argument is not
      an Object, and otherwise converts [this] to an object, which throws a
      TypeError;
    - every other member ([valueOf], [hasOwnProperty],
      [propertyIsEnumerable], [toLocaleString] and the four
      [__define/lookup Getter/Setter__]) converts [this] to an object and
      throws a TypeError.
    None of them touches a variable of the host or writes to the console. *)
Definition call_inherited (key : string) (args : list value) : completion :=
  if bool_decide (key ∈ ["constructor"; "toString"]) then Normal
  else if String.eqb key "isPrototypeOf"
  then if is_object (hd VUndefined args) then Throw JS.TypeError else Normal
  else Throw JS.TypeError.

Definition invoke (cb : callback) (args : list value) (h : Host) : Host :=
  match cb with
  | pong => emit [console log [VString "pong"; hd VUndefined args]] h
  | ready_logic i =>
      emit [postMessage (LogicWorker i) "hello" []]
           (set_pendingLogicCores (alter resolve i (pendingLogicCores h)) h)
  | ready_render =>
      set_pendingRenderCore (resolve <$> pendingRenderCore h) h
  end.

(** The arrow function registered at line 95. *)
Definition listener (cbs : callbacks) (m : message) (h : Host) : Host * completion :=
  if defined (error m) && bool_decide (is_Some (data m))
  then (emit [console error_level
                [VString ("malformed message '" +:+ type m +:+ "', has both data and error")]] h,
        Normal)
  else
    let kind := if defined (error m) then "err" else "ok" in
    let table := if defined (error m) then err cbs else ok cbs in
    let args := default [error m] (data m) in
    match get_property table (type m) with
    | Own cb => (invoke cb args h, Normal)
    | Inherited => (h, call_inherited (type m) args)
    | Missing =>
        if defined (error m)
        then (* callback = console.error *)
          (emit [console error_level args] h, Normal)
        else (* callback = the undefined that console.error(...) returned *)
          (emit [console error_level
                   [VString ("Unknown main event '" +:+ kind +:+ "." +:+ type m +:+ "'.")]] h,
           Throw JS.TypeError)
    end.

(** ** The tick barrier (lines 178-187) *)

Definition advanceTick (h : Host) : Host :=
  let w := world h in
  let '(old, running) :=
    TypedArray.compareExchange (workersRunning w) 0 0
                               (JS.ToInt32 (availableCores_const h)) in
  let h :=
    if old =? 0
    then
      let w := set_workersRunning running w in
      let '(_, t) := TypedArray.add (tick w) 0 1 in
      emit [notify_tick] (set_world (set_tick t w) h)
    else h in
  (* requestAnimationFrame(advanceTick) *)
  set_frameLoop true h.

(** ** Start-up (lines 110-206) *)

(** The workers of the fulfilled promises, in array order: what
    [results.filter(...).map(result => result.value)] leaves.  [i] is the
    index of the head of [ps] in [pendingLogicCores]. *)
Fixpoint fulfilled_from (i : nat) (ps : list promise) : list nat :=
  match ps with
  | [] => []
  | Fulfilled :: ps => i :: fulfilled_from (S i) ps
  | _ :: ps => fulfilled_from (S i) ps
  end.

Definition logicCores (h : Host) : list nat :=
  fulfilled_from 0 (pendingLogicCores h).

(** The messages of [logicCores.forEach(...)], lines 158-161. *)
Definition start_message (count : nat) (coreNumber : nat) (core : nat) : effect :=
  postMessage (LogicWorker core) "start"
              [VNumber (JS.of_nat coreNumber); VNumber (JS.of_nat count); VWorld].

Definition start_messages (cores : list nat) : list effect :=
  imap (start_message (length cores)) cores.

Definition no_cores_message : string := "Failed to load any simulation cores.".

(** Lines 153-187: what runs once [Promise.allSettled] has resolved. *)
Definition after_logic_cores (h : Host) : Host :=
  let cores := logicCores h in
  let h := emit (start_messages cores) h in
  let h := emit [console info
                   [VString ("Loaded " +:+ pretty (length cores) +:+ "/" +:+
                             pretty (length (pendingLogicCores h)) +:+ " logic cores.")]] h in
  if bool_decide (length cores = 0%nat)
  then set_stage (Thrown (JS.Error no_cores_message))
                 (emit [software_failure no_cores_message] h)
  else set_stage AwaitingRenderCore (advanceTick h).

(** Lines 191-206: what runs once [pendingRenderCore] has settled. *)
Definition after_render_core (h : Host) : Host :=
  match pendingRenderCore h with
  | Some Fulfilled =>
      set_stage Bound
        (emit [ postMessage RenderWorker "hello" [];
                postMessage RenderWorker "bindToData" [VWorld];
                console info [VString "Loaded render core."];
                bindWorldToDisplay;
                console info [VString "Bound UI elements."] ] h)
  | Some Rejected => set_stage (Thrown JS.WorkerConstructionError) h
  | _ => h
  end.

(** The module body resumes where it is suspended, as far as it can go. *)
Definition resume_logic (h : Host) : Host :=
  match at_stage h with
  | AwaitingLogicCores =>
      if forallb settled (pendingLogicCores h) then after_logic_cores h else h
  | _ => h
  end.

Definition resume_render (h : Host) : Host :=
  match at_stage h with
  | AwaitingRenderCore => after_render_core h
  | _ => h
  end.

Definition resume (h : Host) : Host := resume_render (resume_logic h).

(** The promise made for logic worker [i] (lines 111-129): the executor
    either constructs the worker and leaves the promise pending, or throws,
    which rejects it. *)
Definition pending_core (env : Env) (i : nat) : promise :=
  if logicWorkerConstructs env i then Pending else Rejected.

(** Lines 14-16: where [Atomics.waitAsync] is missing the module warns
    and goes on. *)
Definition waitAsync_warning (env : Env) : list effect :=
  if Atomics_waitAsync env then []
  else [console warn
          [VString "Atomics.waitAsync not available; glitching may occur when resized."]].

(** The evaluation of the module body, from line 14 up to its first
    suspension. *)
Definition main (env : Env) : Host :=
  let warned := waitAsync_warning env in
  let n := availableCores env in
  match JS.Array_length n with
  | None =>
      {| availableCores_const := n; world := world_init;
         pendingLogicCores := []; pendingRenderCore := None;
         at_stage := Thrown JS.RangeError; frameLoop := false; effects := warned |}
  | Some len =>
      resume
        {| availableCores_const := n; world := world_init;
           pendingLogicCores := pending_core env <$> seq 0 len;
           pendingRenderCore :=
             Some (if renderWorkerConstructs env then Pending else Rejected);
           at_stage := AwaitingLogicCores; frameLoop := false; effects := warned |}
  end.

(** ** The event loop *)

Inductive event : Type :=
  | message_from (w : worker) (m : message)  (* a message event on a worker *)
  | animation_frame                          (* the display refreshes *)
  | workers_store (v : Z).  (* another thread stores [v] in [world.workersRunning] *)

(** A worker exists when the promise made for it was not rejected. *)
Definition exists_worker (h : Host) (w : worker) : bool :=
  match w with
  | LogicWorker i =>
      match pendingLogicCores h !! i with
      | Some Pending | Some Fulfilled => true
      | _ => false
      end
  | RenderWorker =>
      match pendingRenderCore h with
      | Some Pending | Some Fulfilled => true
      | _ => false
      end
  end.

Definition callbacks_of (w : worker) : callbacks :=
  match w with
  | LogicWorker i => logic_callbacks i
  | RenderWorker => render_callbacks
  end.

(** An exception that leaves a listener is reported and the loop goes on. *)
Definition report (c : completion) (h : Host) : Host :=
  match c with
  | Throw e => emit [uncaught e] h
  | Normal => h
  end.

Definition handle_event (h : Host) (e : event) : Host :=
  match e with
  | message_from w m =>
      if exists_worker h w
      then let '(h, c) := listener (callbacks_of w) m h in resume (report c h)
      else h
  | animation_frame => if frameLoop h then advanceTick h else h
  | workers_store v =>
      set_world (set_workersRunning (TypedArray.set (workersRunning (world h)) 0 v)
                                    (world h)) h
  end.

Definition run (h : Host) (trace : list event) : Host :=
  foldl handle_event h trace.

(** ** The vocabulary of the properties *)

(** The part of the world the host only allocates: every array but the
    cells of [tick] and [workersRunning], and the shape of those two. *)
Record same_frame (w w' : World) : Prop := {
  frame_lock : lock w' = lock w;
  frame_bounds_x : bounds_x w' = bounds_x w;
  frame_bounds_y : bounds_y w' = bounds_y w;
  frame_wrapping : wrappingBehaviour w' = wrappingBehaviour w;
  frame_particles : particles w' = particles w;
  frame_tick_kind : TypedArray.elements (tick w') = TypedArray.elements (tick w);
  frame_tick_length : TypedArray.length (tick w') = TypedArray.length (tick w);
  frame_running_kind :
    TypedArray.elements (workersRunning w') = TypedArray.elements (workersRunning w);
  frame_running_length :
    TypedArray.length (workersRunning w') = TypedArray.length (workersRunning w);
}.

Definition tick_now (h : Host) : Z := TypedArray.cells (tick (world h)) 0.
Definition running_now (h : Host) : Z := TypedArray.cells (workersRunning (world h)) 0.

(** The two cells have the shape they were allocated with and hold values of
    their element type. *)
Record typed (w : World) : Prop := {
  typed_tick_kind : TypedArray.elements (tick w) = TypedArray.BigInt64;
  typed_tick_length : TypedArray.length (tick w) = 1%N;
  typed_running_kind : TypedArray.elements (workersRunning w) = TypedArray.Int32;
  typed_running_length : TypedArray.length (workersRunning w) = 1%N;
  typed_tick_range : - 2 ^ 63 <= TypedArray.cells (tick w) 0 < 2 ^ 63;
  typed_running_range : - 2 ^ 31 <= TypedArray.cells (workersRunning w) 0 < 2 ^ 31;
}.

(** A step of the event loop either leaves the tick alone or is a barrier
    transition: [workersRunning] was 0, it is swapped to the reset value, and
    the tick is the old one plus 1 in 64-bit arithmetic. *)
Definition barrier_transition (h h' : Host) : Prop :=
  running_now h = 0 /\
  running_now h' = JS.ToInt32 (availableCores_const h) /\
  tick_now h' = TypedArray.wrap TypedArray.BigInt64 (tick_now h + 1).

(** One round of the barrier: the workers bring [workersRunning] down to 0,
    then the display refreshes. *)
Definition round (h : Host) : Host :=
  handle_event (handle_event h (workers_store 0)) animation_frame.

Definition one_core : Env :=
  {| coreOverride := None; hardwareConcurrency := Some 3;
     logicWorkerConstructs := fun _ => true;
     renderWorkerConstructs := true; Atomics_waitAsync := true |}.

Definition ready : message :=
  {| type := "ready"; data := Some []; error := VUndefined |}.

Definition zero_override : Env :=
  {| coreOverride := Some (JS.of_Z 0); hardwareConcurrency := Some 8;
     logicWorkerConstructs := fun _ => true;
     renderWorkerConstructs := true; Atomics_waitAsync := true |}.

Definition bogus : message := {| type := "bogus"; data := None; error := VUndefined |}.

Definition three_of_four : Env :=
  {| coreOverride := None; hardwareConcurrency := Some 6;
     logicWorkerConstructs := fun i => negb (i =? 3)%nat;
     renderWorkerConstructs := true; Atomics_waitAsync := true |}.

(** What an effect means for start-up: a [start] sent to a logic worker, the
    failure screen, something only a started simulation does (a tick
    notification, anything sent to the render worker, the display binding),
    or none of these. *)
Inductive effect_kind : Type := Quiet | Start | Failure | Simulation.

Definition kind_of (e : effect) : effect_kind :=
  match e with
  | postMessage (LogicWorker _) t _ => if String.eqb t "start" then Start else Quiet
  | postMessage RenderWorker _ _ => Simulation
  | console _ _ => Quiet
  | notify_tick => Simulation
  | software_failure _ => Failure
  | bindWorldToDisplay => Simulation
  | uncaught _ => Quiet
  end.

Definition is_start_to (i : nat) (e : effect) : bool :=
  match e with
  | postMessage (LogicWorker j) t _ => Nat.eqb j i && String.eqb t "start"
  | _ => false
  end.

(** The acknowledgment of line 124. *)
Definition hello (i : nat) : effect := postMessage (LogicWorker i) "hello" [].

(** The stages at which the module body has got past the failure check of
    line 164. *)
Definition past_failure_check (s : stage) : Prop :=
  match s with
  | AwaitingRenderCore | Bound => True
  | Thrown e => e = JS.WorkerConstructionError
  | AwaitingLogicCores => False
  end.

(** How far start-up has got, with what has been done so far. *)
Inductive progress (h : Host) : Prop :=
  | aborted :
      JS.Array_length (availableCores_const h) = None ->
      at_stage h = Thrown JS.RangeError ->
      pendingLogicCores h = [] ->
      pendingRenderCore h = None ->
      frameLoop h = false ->
      tick_now h = 0 ->
      Forall (fun e => kind_of e = Quiet) (effects h) ->
      progress h
  | waiting :
      at_stage h = AwaitingLogicCores ->
      frameLoop h = false ->
      tick_now h = 0 ->
      Forall (fun e => kind_of e = Quiet) (effects h) ->
      (forall i, pendingLogicCores h !! i = Some Fulfilled -> hello i ∈ effects h) ->
      progress h
  | failed :
      at_stage h = Thrown (JS.Error no_cores_message) ->
      Pending ∉ pendingLogicCores h ->
      logicCores h = [] ->
      frameLoop h = false ->
      tick_now h = 0 ->
      (exists pre post,
         effects h = pre ++ [software_failure no_cores_message] ++ post /\
         Forall (fun e => kind_of e = Quiet) pre /\
         Forall (fun e => kind_of e = Quiet) post) ->
      progress h
  | started :
      past_failure_check (at_stage h) ->
      Pending ∉ pendingLogicCores h ->
      logicCores h <> [] ->
      frameLoop h = true ->
      (exists pre post,
         effects h = pre ++ start_messages (logicCores h) ++ post /\
         Forall (fun e => kind_of e = Quiet) pre /\
         (forall i, i ∈ logicCores h -> hello i ∈ pre) /\
         Forall (fun e => kind_of e = Quiet \/ kind_of e = Simulation) post) ->
      progress h.

(** The module body is suspended at line 152 only while a promise is
    pending. *)
Definition suspended (h : Host) : Prop :=
  at_stage h = AwaitingLogicCores -> forallb settled (pendingLogicCores h) = false.

#[local] Instance promise_eq_dec : EqDecision promise.
Proof. solve_decision. Defined.

(** What handling one message, up to the report of an exception, does to
    the host: it adds quiet effects and may resolve the promise of the worker
    the message came from. *)
Record listened (w : worker) (m : message) (h h1 : Host) : Prop := {
  listened_effects :
    exists es, effects h1 = effects h ++ es /\
      Forall (fun e => kind_of e = Quiet) es /\
      (pendingLogicCores h1 = pendingLogicCores h \/
       exists i, w = LogicWorker i /\ type m = "ready" /\
         pendingLogicCores h1 = alter resolve i (pendingLogicCores h) /\
         hello i ∈ es);
  listened_world : world h1 = world h;
  listened_stage : at_stage h1 = at_stage h;
  listened_frameLoop : frameLoop h1 = frameLoop h;
  listened_const : availableCores_const h1 = availableCores_const h;
  listened_render :
    pendingRenderCore h1 = pendingRenderCore h \/
    pendingRenderCore h1 = resolve <$> pendingRenderCore h;
}.

(** The event is a [ready] message from logic worker [i]. *)
Definition signals_ready (i : nat) (e : event) : Prop :=
  match e with
  | message_from (LogicWorker j) m => j = i /\ type m = "ready"
  | _ => False
  end.

Definition two_cores : Env :=
  {| coreOverride := None; hardwareConcurrency := Some 4;
     logicWorkerConstructs := fun _ => true;
     renderWorkerConstructs := true; Atomics_waitAsync := true |}.

(** ** The code on the failure pages (lines 8 and 169) *)

Module Guru.

(** The globals the expression reads: whether [Atomics.waitAsync] exists, and
    the booleans [crossOriginIsolated] and [isSecureContext]. *)
Record platform : Type := {
  waitAsync : bool;
  crossOriginIsolated : bool;
  isSecureContext : bool;
}.

(** [!!Atomics.waitAsync << 2 | crossOriginIsolated << 1 | isSecureContext << 0] *)
Definition flags (p : platform) : Z :=
  Z.lor (Z.lor (Z.shiftl (Z.b2z (waitAsync p)) 2)
               (Z.shiftl (Z.b2z (crossOriginIsolated p)) 1))
        (Z.shiftl (Z.b2z (isSecureContext p)) 0).

Definition digit (d : N) : Ascii.ascii :=
  if (d <? 10)%N then Ascii.ascii_of_N (48 + d) else Ascii.ascii_of_N (87 + d).

Fixpoint digits (fuel : nat) (n : N) (acc : string) : string :=
  match fuel with
  | O => acc
  | S fuel =>
      let acc := String (digit (n mod 16)) acc in
      if (n / 16 =? 0)%N then acc else digits fuel (n / 16)%N acc
  end.

(** [n.toString(16)] for an integer [n >= 0]; a number of [k] bits has at most
    [k] hexadecimal digits, so the fuel suffices. *)
Definition toString16 (n : N) : string :=
  digits (S (N.to_nat (N.log2 n))) n EmptyString.

Definition upper (c : Ascii.ascii) : Ascii.ascii :=
  let n := Ascii.N_of_ascii c in
  if ((97 <=? n) && (n <=? 122))%N then Ascii.ascii_of_N (n - 32) else c.

Fixpoint toUpperCase (s : string) : string :=
  match s with
  | EmptyString => EmptyString
  | String c s => String (upper c) (toUpperCase s)
  end.

(** [s.padStart(width, fill)] for a one-character [fill]. *)
Definition padStart (width : nat) (fill : Ascii.ascii) (s : string) : string :=
  String.string_of_list_ascii (repeat fill (width - String.length s)) +:+ s.

(** The digits printed after [Guru Meditation 0x]. *)
Definition meditation (p : platform) : string :=
  padStart 2 (Ascii.ascii_of_N 48) (toUpperCase (toString16 (Z.to_N (flags p)))).

End Guru.

(** ** The drawing callbacks handed to the display (lines 198-204) *)

Module Draw.

Inductive primitive : Type := dot | line | rect | fill | test.

Definition message_type (p : primitive) : string :=
  match p with
  | dot => "drawDot"
  | line => "drawLine"
  | rect => "drawRect"
  | fill => "drawFill"
  | test => "drawTest"
  end.

(** [(...args) => renderCore.postMessage({type: ..., data: args})] *)
Definition callback (p : primitive) (args : list value) (h : Host) : Host :=
  emit [postMessage RenderWorker (message_type p) args] h.

End Draw.

(** The host with the display layer attached: besides the events of the
    loop, [ui.mjs] may call one of the drawing callbacks.  It holds them only
    from the call of [bindWorldToDisplay] at line 198 on, that is, once the
    module body has reached [Bound]. *)
Inductive ui_event : Type :=
  | from_loop (e : event)
  | draw_call (p : Draw.primitive) (args : list value).

Definition handle_ui_event (h : Host) (e : ui_event) : Host :=
  match e with
  | from_loop e => handle_event h e
  | draw_call p args =>
      match at_stage h with
      | Bound => Draw.callback p args h
      | _ => h
      end
  end.

Definition run_ui (h : Host) (trace : list ui_event) : Host :=
  foldl handle_ui_event h trace.

(** ** The vocabulary of the further properties *)

(** The Number is the integer [len], and [len] is a length [Array] accepts
    for a pool of at least one worker. *)
Definition pool_of (n : number) (len : nat) : Prop :=
  exists q, n = Finite q /\ (q == inject_Z (Z.of_nat len))%Q /\
            (1 <= len)%nat /\ Z.of_nat len < 2 ^ 32.


(** What reaches the display side: the messages to the render worker and
    the call of [bindWorldToDisplay]. *)
Definition for_display (e : effect) : bool :=
  match e with
  | postMessage RenderWorker _ _ => true
  | bindWorldToDisplay => true
  | _ => false
  end.

Definition display_effects (h : Host) : list effect :=
  List.filter for_display (effects h).

(** Lines 192, 193 and 198, in this order. *)
Definition binding : list effect :=
  [ postMessage RenderWorker "hello" [];
    postMessage RenderWorker "bindToData" [VWorld];
    bindWorldToDisplay ].

(** The messages that the drawing calls of a trace put into the render
    worker's queue, in the order of the calls. *)
Fixpoint draws_of (h : Host) (trace : list ui_event) : list effect :=
  match trace with
  | [] => []
  | e :: trace =>
      match e, at_stage h with
      | draw_call p args, Bound => [postMessage RenderWorker (Draw.message_type p) args]
      | _, _ => []
      end ++ draws_of (handle_ui_event h e) trace
  end.

(** How the promise of the render worker, the stage of the module body and
    the display side hang together, before the module body has been resumed
    ([display_inv0]) and after ([display_inv]); [draws] are the messages of
    the drawing callbacks so far. *)
Record display_inv0 (env : Env) (draws : list effect) (h : Host) : Prop := {
  di_constructed :
    match pendingRenderCore h with
    | Some Rejected => renderWorkerConstructs env = false
    | Some _ => renderWorkerConstructs env = true
    | None => at_stage h = Thrown JS.RangeError
    end;
  di_bound : at_stage h = Bound -> pendingRenderCore h = Some Fulfilled;
  di_thrown :
    at_stage h = Thrown JS.WorkerConstructionError -> pendingRenderCore h = Some Rejected;
  di_effects :
    display_effects h = match at_stage h with Bound => binding | _ => [] end ++ draws;
  di_draws : at_stage h <> Bound -> draws = [];
}.

Record display_inv (env : Env) (draws : list effect) (h : Host) : Prop := {
  di_inv0 : display_inv0 env draws h;
  di_waiting : at_stage h = AwaitingRenderCore -> pendingRenderCore h = Some Pending;
}.

(** The effect is an entry of the console or the report of an exception. *)
Definition is_log (e : effect) : Prop :=
  match e with
  | console _ _ | uncaught _ => True
  | _ => False
  end.

(** The event is not a store to [workersRunning] by another thread. *)
Definition host_only (e : event) : Prop :=
  match e with
  | workers_store _ => False
  | _ => True
  end.

(** The event is a message. *)
Definition is_message (e : event) : Prop :=
  match e with
  | message_from _ _ => True
  | _ => False
  end.



(** The effect is a warning on the console (line 15). *)
Definition is_warning (e : effect) : bool :=
  match e with
  | console warn _ => true
  | _ => false
  end.

(** * Properties *)

Arguments advanceTick : simpl never.
Arguments invoke : simpl never.
Arguments listener : simpl never.
Arguments after_logic_cores : simpl never.
Arguments after_render_core : simpl never.
Arguments resume_logic : simpl never.
Arguments resume_render : simpl never.
Arguments resume : simpl never.
Arguments logicCores : simpl never.
Arguments start_messages : simpl never.

(** ** What no step of the host touches *)

Lemma same_frame_refl w : same_frame w w.
Proof. by split. Qed.

Lemma same_frame_trans w1 w2 w3 :
  same_frame w1 w2 -> same_frame w2 w3 -> same_frame w1 w3.
Proof. intros [] []; split; congruence. Qed.

Lemma set_kind a i v :
  TypedArray.elements (TypedArray.set a i v) = TypedArray.elements a.
Proof. unfold TypedArray.set. by destruct (_ <? _)%N. Qed.

Lemma set_length a i v :
  TypedArray.length (TypedArray.set a i v) = TypedArray.length a.
Proof. unfold TypedArray.set. by destruct (_ <? _)%N. Qed.

Lemma set_cell a i v :
  (i < TypedArray.length a)%N ->
  TypedArray.cells (TypedArray.set a i v) i = TypedArray.wrap (TypedArray.elements a) v.
Proof.
  intros Hi. unfold TypedArray.set.
  apply N.ltb_lt in Hi. rewrite Hi. cbn. by rewrite N.eqb_refl.
Qed.

(** The two branches of [advanceTick], as equations. *)
Lemma advanceTick_swapped h :
  TypedArray.cells (workersRunning (world h)) 0 = 0 ->
  advanceTick h =
    set_frameLoop true
      (emit [notify_tick]
        (set_world
          (set_tick
            (TypedArray.set (tick (world h)) 0
               (TypedArray.cells (tick (world h)) 0 + 1))
            (set_workersRunning
               (TypedArray.set (workersRunning (world h)) 0
                  (JS.ToInt32 (availableCores_const h)))
               (world h)))
          h)).
Proof.
  intros Hold. unfold advanceTick, TypedArray.compareExchange. rewrite Hold.
  replace (TypedArray.wrap _ 0) with 0 by by destruct (TypedArray.elements _).
  reflexivity.
Qed.

Lemma advanceTick_missed h :
  TypedArray.cells (workersRunning (world h)) 0 <> 0 ->
  advanceTick h = set_frameLoop true h.
Proof.
  intros Hold. unfold advanceTick, TypedArray.compareExchange.
  replace (TypedArray.wrap _ 0) with 0 by by destruct (TypedArray.elements _).
  apply Z.eqb_neq in Hold. rewrite !Hold. reflexivity.
Qed.

Lemma advanceTick_frame h : same_frame (world h) (world (advanceTick h)).
Proof.
  destruct (decide (TypedArray.cells (workersRunning (world h)) 0 = 0)) as [E|E].
  - rewrite (advanceTick_swapped _ E). split; cbn; auto using set_kind, set_length.
  - rewrite (advanceTick_missed _ E). apply same_frame_refl.
Qed.

Lemma invoke_world cb args h : world (invoke cb args h) = world h.
Proof. by destruct cb. Qed.

Lemma listener_world cbs m h : world (listener cbs m h).1 = world h.
Proof.
  unfold listener. destruct (_ && _); [done|].
  destruct (get_property _ _); [apply invoke_world|done|].
  by destruct (defined _).
Qed.

Lemma report_world c h : world (report c h) = world h.
Proof. by destruct c. Qed.

Lemma after_logic_cores_frame h : same_frame (world h) (world (after_logic_cores h)).
Proof.
  unfold after_logic_cores. case_bool_decide; cbn; [apply same_frame_refl|].
  match goal with |- same_frame _ (world (advanceTick ?k)) =>
    exact (advanceTick_frame k) end.
Qed.

Lemma resume_logic_frame h : same_frame (world h) (world (resume_logic h)).
Proof.
  unfold resume_logic. destruct (at_stage h); try apply same_frame_refl.
  destruct (forallb _ _); [apply after_logic_cores_frame|apply same_frame_refl].
Qed.

Lemma after_render_core_world h : world (after_render_core h) = world h.
Proof. unfold after_render_core. by destruct (pendingRenderCore h) as [[]|]. Qed.

Lemma resume_render_world h : world (resume_render h) = world h.
Proof.
  unfold resume_render. destruct (at_stage h); try done. apply after_render_core_world.
Qed.

Lemma resume_frame h : same_frame (world h) (world (resume h)).
Proof. unfold resume. rewrite resume_render_world. apply resume_logic_frame. Qed.

Lemma handle_event_frame h e : same_frame (world h) (world (handle_event h e)).
Proof.
  destruct e as [w m| |v]; cbn.
  - destruct (exists_worker h w); [|apply same_frame_refl].
    destruct (listener _ m h) as [h1 c] eqn:E.
    eapply same_frame_trans; [|apply resume_frame].
    rewrite report_world. replace h1 with (listener (callbacks_of w) m h).1 by by rewrite E.
    rewrite listener_world. apply same_frame_refl.
  - destruct (frameLoop h); [apply advanceTick_frame|apply same_frame_refl].
  - split; cbn; auto using set_kind, set_length.
Qed.

Lemma run_snoc h trace e : run h (trace ++ [e]) = handle_event (run h trace) e.
Proof. unfold run. by rewrite foldl_app. Qed.

Lemma run_app h trace more : run h (trace ++ more) = run (run h trace) more.
Proof. unfold run. by rewrite foldl_app. Qed.

Lemma run_frame h trace : same_frame (world h) (world (run h trace)).
Proof.
  induction trace as [|e trace IH] using rev_ind; [apply same_frame_refl|].
  rewrite run_snoc. eapply same_frame_trans; [exact IH|apply handle_event_frame].
Qed.

Lemma main_frame env : same_frame world_init (world (main env)).
Proof.
  unfold main. cbv zeta. destruct (JS.Array_length _); [|apply same_frame_refl].
  match goal with |- same_frame _ (world (resume ?k)) => exact (resume_frame k) end.
Qed.

Lemma reachable_frame env trace : same_frame world_init (world (run (main env) trace)).
Proof. eapply same_frame_trans; [apply main_frame|apply run_frame]. Qed.

(** ** Machine integers *)

Lemma signed_range bits z :
  0 < bits -> - 2 ^ (bits - 1) <= JS.signed bits z < 2 ^ (bits - 1).
Proof.
  intros Hb. unfold JS.signed.
  assert (2 ^ bits = 2 * 2 ^ (bits - 1)) as E.
  { rewrite <- Z.pow_succ_r by lia. f_equal. lia. }
  assert (0 < 2 ^ (bits - 1)) by (apply Z.pow_pos_nonneg; lia).
  pose proof (Z.mod_pos_bound z (2 ^ bits) ltac:(lia)).
  destruct (Z.ltb_spec (z mod 2 ^ bits) (2 ^ (bits - 1))); lia.
Qed.

Lemma signed_small bits z :
  0 < bits -> - 2 ^ (bits - 1) <= z < 2 ^ (bits - 1) -> JS.signed bits z = z.
Proof.
  intros Hb Hz. unfold JS.signed.
  assert (2 ^ bits = 2 * 2 ^ (bits - 1)) as E.
  { rewrite <- Z.pow_succ_r by lia. f_equal. lia. }
  destruct (Z.neg_nonneg_cases z) as [Hneg|Hpos].
  - assert (z mod 2 ^ bits = z + 2 ^ bits) as ->.
    { symmetry. apply (Z.mod_unique_pos _ _ (-1)); lia. }
    destruct (Z.ltb_spec (z + 2 ^ bits) (2 ^ (bits - 1))); lia.
  - rewrite Z.mod_small by lia.
    destruct (Z.ltb_spec z (2 ^ (bits - 1))); lia.
Qed.

Lemma ToUint32_range n : 0 <= JS.ToUint32 n < 2 ^ 32.
Proof. destruct n; cbn -[Z.pow]; try lia. apply Z.mod_pos_bound. lia. Qed.

(** A length that [Array] accepted is the value it was given. *)
Lemma Array_length_ToUint32 n len :
  JS.Array_length n = Some len -> JS.ToUint32 n = Z.of_nat len.
Proof.
  destruct n as [| |q]; try discriminate. unfold JS.Array_length.
  destruct (Qeq_bool _ _); [|discriminate]. intros [= <-].
  symmetry. apply Z2Nat.id, (ToUint32_range (Finite q)).
Qed.

Lemma Array_length_ToInt32 n len :
  JS.Array_length n = Some len -> Z.of_nat len < 2 ^ 31 -> JS.ToInt32 n = Z.of_nat len.
Proof.
  intros Hlen Hsmall. unfold JS.ToInt32.
  rewrite (Array_length_ToUint32 _ _ Hlen). apply signed_small; lia.
Qed.

(** [Array] throws on every Number below zero. *)
Lemma Array_length_negative n : JS.negative n -> JS.Array_length n = None.
Proof.
  destruct n as [|s|q]; try done. intros Hneg. unfold JS.Array_length.
  destruct (Qeq_bool _ _) eqn:E; [|done]. exfalso.
  apply Qeq_bool_iff in E. pose proof (ToUint32_range (Finite q)) as Hr.
  assert (0 <= inject_Z (JS.ToUint32 (Finite q)))%Q as Hpos.
  { rewrite <- (Zle_Qle 0). lia. }
  rewrite E in Hpos. cbn in Hneg. apply (Qlt_not_le _ _ Hneg Hpos).
Qed.

(** ** The cells of [tick] and [workersRunning] *)

Lemma world_init_typed : typed world_init.
Proof. split; cbn; try done; lia. Qed.

(** What one run of [advanceTick] does to a typed world. *)
Lemma advanceTick_spec h :
  typed (world h) ->
  let h' := advanceTick h in
  typed (world h') /\
  frameLoop h' = true /\
  availableCores_const h' = availableCores_const h /\
  pendingLogicCores h' = pendingLogicCores h /\
  pendingRenderCore h' = pendingRenderCore h /\
  at_stage h' = at_stage h /\
  ((running_now h = 0 /\
    running_now h' = JS.ToInt32 (availableCores_const h) /\
    tick_now h' = TypedArray.wrap TypedArray.BigInt64 (tick_now h + 1) /\
    effects h' = effects h ++ [notify_tick])
   \/
   (running_now h <> 0 /\ h' = set_frameLoop true h)).
Proof.
  intros [Htk Htl Hrk Hrl Htr Hrr]. cbv zeta.
  destruct (decide (running_now h = 0)) as [E|E].
  - rewrite (advanceTick_swapped _ E). unfold running_now, tick_now. cbn.
    rewrite !set_cell by (rewrite ?Htl, ?Hrl; lia). rewrite Htk, Hrk.
    split_and!; try done.
    + split; cbn; rewrite ?set_kind, ?set_length, ?set_cell
        by (rewrite ?Htl, ?Hrl; lia); rewrite ?Htk, ?Hrk; try done.
      * apply (signed_range 64); lia.
      * apply (signed_range 32); lia.
    + left. split_and!; try done.
      apply signed_small; [lia|]. apply (signed_range 32). lia.
  - rewrite (advanceTick_missed _ E). split_and!; try done. by right.
Qed.

Lemma listener_const cbs m h :
  availableCores_const (listener cbs m h).1 = availableCores_const h.
Proof.
  unfold listener. destruct (_ && _); [done|].
  destruct (get_property _ _) as [[]| |]; [done..|].
  by destruct (defined _).
Qed.

Lemma report_const c h : availableCores_const (report c h) = availableCores_const h.
Proof. by destruct c. Qed.

Lemma resume_render_const h :
  availableCores_const (resume_render h) = availableCores_const h.
Proof.
  unfold resume_render, after_render_core.
  destruct (at_stage h); try done. by destruct (pendingRenderCore h) as [[]|].
Qed.

Lemma resume_logic_step h :
  typed (world h) ->
  let h' := resume_logic h in
  typed (world h') /\ availableCores_const h' = availableCores_const h /\
  (tick_now h' = tick_now h \/ barrier_transition h h').
Proof.
  intros Ht. cbv zeta. unfold resume_logic.
  destruct (at_stage h); try by split_and!; [..|left].
  destruct (forallb _ _); [|by split_and!; [..|left]].
  unfold after_logic_cores. case_bool_decide; [by split_and!; [..|left]|].
  match goal with |- context [advanceTick ?k] =>
    destruct (advanceTick_spec k Ht) as (Ht' & _ & Hc & _ & _ & _ & Hcase) end.
  split_and!; [exact Ht'|exact Hc|].
  destruct Hcase as [(H0 & Hr & Htick & _)|[_ ->]]; [right|by left].
  by split_and!.
Qed.

Lemma handle_event_step h e :
  typed (world h) ->
  let h' := handle_event h e in
  typed (world h') /\ availableCores_const h' = availableCores_const h /\
  (tick_now h' = tick_now h \/ barrier_transition h h').
Proof.
  intros Ht. cbv zeta. destruct e as [w m| |v]; cbn.
  - destruct (exists_worker h w); [|by split_and!; [..|left]].
    destruct (listener _ m h) as [h1 c] eqn:E.
    assert (world (report c h1) = world h) as Hw.
    { rewrite report_world. replace h1 with (listener (callbacks_of w) m h).1 by by rewrite E.
      apply listener_world. }
    assert (availableCores_const (report c h1) = availableCores_const h) as Hc.
    { rewrite report_const. replace h1 with (listener (callbacks_of w) m h).1 by by rewrite E.
      apply listener_const. }
    unfold resume. unfold barrier_transition, tick_now, running_now.
    rewrite resume_render_world, resume_render_const.
    destruct (resume_logic_step (report c h1)) as (Ht' & Hc' & Hcase);
      [by rewrite Hw|].
    unfold barrier_transition, tick_now, running_now in Hcase.
    rewrite Hw, Hc in Hcase. rewrite Hc' , Hc. by split_and!.
  - destruct (frameLoop h); [|by split_and!; [..|left]].
    destruct (advanceTick_spec h Ht) as (Ht' & _ & Hc & _ & _ & _ & Hcase).
    split_and!; [done..|].
    destruct Hcase as [(H0 & Hr & Htick & _)|[_ ->]]; [right|by left].
    by split_and!.
  - destruct Ht as [Htk Htl Hrk Hrl Htr Hrr].
    split_and!; [|done|by left].
    split; cbn; rewrite ?set_kind, ?set_length; try done.
    rewrite set_cell by (rewrite Hrl; lia). rewrite Hrk.
    apply (signed_range 32); lia.
Qed.

Lemma resume_typed h : typed (world h) -> typed (world (resume h)).
Proof.
  intros Ht. unfold resume. rewrite resume_render_world.
  by destruct (resume_logic_step h Ht) as [? _].
Qed.

Lemma main_typed env : typed (world (main env)).
Proof.
  unfold main. cbv zeta. destruct (JS.Array_length _); [|apply world_init_typed].
  apply resume_typed, world_init_typed.
Qed.

Lemma run_typed h trace : typed (world h) -> typed (world (run h trace)).
Proof.
  intros Ht. induction trace as [|e trace IH] using rev_ind; [done|].
  rewrite run_snoc. by destruct (handle_event_step (run h trace) e IH) as [? _].
Qed.

Lemma run_const h trace :
  typed (world h) -> availableCores_const (run h trace) = availableCores_const h.
Proof.
  intros Ht. induction trace as [|e trace IH] using rev_ind; [done|].
  rewrite run_snoc.
  destruct (handle_event_step (run h trace) e (run_typed _ _ Ht)) as (_ & -> & _).
  exact IH.
Qed.

Lemma main_const env : availableCores_const (main env) = availableCores env.
Proof.
  unfold main. cbv zeta. destruct (JS.Array_length _); [|done].
  unfold resume. rewrite resume_render_const.
  match goal with |- context [resume_logic ?k] =>
    by destruct (resume_logic_step k world_init_typed) as (_ & -> & _) end.
Qed.

(** ** The fresh world *)

(** C8: in every state the host reaches, from the end of the module body's
    first run onwards and so before the first tick, [wrappingBehaviour] has
    exactly four entries, each of them WALL (1), and every cell of
    [particles.type] is AIR (0): the host allocates and fills these arrays and
    never writes them again. *)
Theorem C8_walls_and_air env trace :
  let w := world (run (main env) trace) in
  TypedArray.length (wrappingBehaviour w) = 4%N /\
  (forall edge, (edge < 4)%N ->
     TypedArray.get (wrappingBehaviour w) edge = Some WALL) /\
  TypedArray.length (particles_type (particles w)) = totalPixels /\
  (forall cell, (cell < totalPixels)%N ->
     TypedArray.get (particles_type (particles w)) cell = Some AIR).
Proof.
  cbv zeta. destruct (reachable_frame env trace) as [_ _ _ -> -> _ _ _ _].
  split_and!; [done| |done|].
  - intros edge Hedge. unfold TypedArray.get. cbn.
    apply N.ltb_lt in Hedge. by rewrite Hedge.
  - intros cell Hcell. unfold TypedArray.get. cbn.
    apply N.ltb_lt in Hcell. by rewrite Hcell.
Qed.

Lemma C8_walls_and_air_witness :
  let env := {| coreOverride := None; hardwareConcurrency := Some 4;
                logicWorkerConstructs := fun _ => true;
                renderWorkerConstructs := true; Atomics_waitAsync := true |} in
  let w := world (run (main env) [animation_frame]) in
  TypedArray.get (wrappingBehaviour w) 3 = Some WALL /\
  TypedArray.get (particles_type (particles w)) 8294399 = Some AIR.
Proof.
  cbv zeta.
  pose proof (C8_walls_and_air
    {| coreOverride := None; hardwareConcurrency := Some 4;
       logicWorkerConstructs := fun _ => true;
       renderWorkerConstructs := true;
       Atomics_waitAsync := true |} [animation_frame]) as (_ & Hedge & _ & Hcell).
  split; [apply Hedge|apply Hcell]; reflexivity.
Defined.

(** ** The tick barrier *)



(** ** The tick over a run *)

Lemma fulfilled_from_fresh env i l : fulfilled_from i (pending_core env <$> l) = [].
Proof.
  revert i. induction l as [|j l IH]; intros i; [done|].
  cbn. unfold pending_core at 1. destruct (logicWorkerConstructs env j); apply IH.
Qed.

(** The module body's first run never reaches [advanceTick]: no promise is
    fulfilled yet. *)
Lemma main_world env : world (main env) = world_init.
Proof.
  unfold main. cbv zeta. destruct (JS.Array_length _); [|done].
  unfold resume. rewrite resume_render_world. unfold resume_logic. cbn.
  destruct (forallb _ _); [|done].
  unfold after_logic_cores, logicCores. cbn. by rewrite fulfilled_from_fresh.
Qed.

Lemma signed_mod bits z : 0 < bits -> JS.signed bits z mod 2 ^ bits = z mod 2 ^ bits.
Proof.
  intros Hb. unfold JS.signed.
  assert (0 < 2 ^ bits) by (apply Z.pow_pos_nonneg; lia).
  destruct (_ <? _).
  - apply Z.mod_mod. lia.
  - rewrite <- (Z.mul_1_l (2 ^ bits)) at 2.
    rewrite <- Z.add_opp_r, <- Z.mul_opp_l, Z.mod_add by lia. apply Z.mod_mod. lia.
Qed.

Lemma signed_add bits a c :
  0 < bits -> JS.signed bits (JS.signed bits a + c) = JS.signed bits (a + c).
Proof.
  intros Hb. unfold JS.signed at 1 3.
  assert (0 < 2 ^ bits) by (apply Z.pow_pos_nonneg; lia).
  rewrite Z.add_mod, signed_mod, <- Z.add_mod by lia. reflexivity.
Qed.

Lemma round_spec h :
  typed (world h) -> frameLoop h = true ->
  typed (world (round h)) /\ frameLoop (round h) = true /\
  tick_now (round h) = TypedArray.wrap TypedArray.BigInt64 (tick_now h + 1).
Proof.
  intros Ht Hloop. unfold round.
  destruct (handle_event_step h (workers_store 0) Ht) as (Ht1 & _ & _).
  set (h1 := handle_event h (workers_store 0)) in *.
  assert (frameLoop h1 = true) as Hloop1 by done.
  assert (tick_now h1 = tick_now h) as Htick1 by done.
  assert (running_now h1 = 0) as Hrun1.
  { unfold running_now, h1. cbn. destruct Ht as [_ _ Hk Hl _ _].
    rewrite set_cell by (rewrite Hl; lia). by rewrite Hk. }
  clearbody h1. cbn. rewrite Hloop1.
  destruct (advanceTick_spec h1 Ht1) as (Ht2 & Hloop2 & _ & _ & _ & _ & Hcase).
  split_and!; [done..|].
  destruct Hcase as [(_ & _ & -> & _)|[? _]]; [|done]. by rewrite Htick1.
Qed.

Lemma rounds_spec (n : N) h :
  typed (world h) -> frameLoop h = true ->
  typed (world (N.iter n round h)) /\ frameLoop (N.iter n round h) = true /\
  tick_now (N.iter n round h)
    = TypedArray.wrap TypedArray.BigInt64 (tick_now h + Z.of_N n).
Proof.
  intros Ht Hloop. induction n as [|n (Ht' & Hloop' & Htick)] using N.peano_ind.
  - cbn [N.iter]. split_and!; [done..|]. rewrite Z.add_0_r. symmetry.
    apply signed_small; [lia|]. by destruct Ht.
  - rewrite N.iter_succ.
    destruct (round_spec _ Ht' Hloop') as (Ht'' & Hloop'' & ->).
    split_and!; [done..|]. rewrite Htick. cbn [TypedArray.wrap].
    rewrite signed_add by lia. f_equal. lia.
Qed.




(** While the tick stays clear of the largest 64-bit value, a run raises it
    by at most one per step and never lowers it. *)
Lemma run_tick_bounds h more :
  typed (world h) ->
  tick_now h + Z.of_nat (length more) < 2 ^ 63 ->
  tick_now h <= tick_now (run h more) <= tick_now h + Z.of_nat (length more).
Proof.
  intros Ht. induction more as [|e more IH] using rev_ind; intros Hlen.
  - cbn. lia.
  - rewrite length_app in *. cbn [length] in *. rewrite run_snoc.
    specialize (IH ltac:(lia)).
    pose proof (run_typed h more Ht) as Ht'.
    destruct (handle_event_step _ e Ht') as (_ & _ & [->|(_ & _ & ->)]); [lia|].
    cbn [TypedArray.wrap]. rewrite signed_small; [lia|lia|].
    destruct Ht' as [_ _ _ _ ? _]. unfold tick_now in *. lia.
Qed.

(** C4, as stated, fails: with one logic core started, 2^63 - 2 rounds of
    the barrier bring the tick from 1 to 2^63 - 1, the largest value of a
    BigInt64Array cell, and the next barrier transition takes it down to
    -2^63. *)
Lemma C4_tick_wraps :
  let started := run (main one_core) [message_from (LogicWorker 0) ready] in
  let h := N.iter (2 ^ 63 - 2) round started in
  tick_now (main one_core) = 0 /\
  tick_now started = 1 /\
  tick_now h = 2 ^ 63 - 1 /\
  tick_now (round h) = - 2 ^ 63 /\
  tick_now (round h) < tick_now h.
Proof.
  cbv zeta.
  set (started := run (main one_core) [message_from (LogicWorker 0) ready]).
  assert (typed (world started)) as Ht by apply run_typed, main_typed.
  assert (frameLoop started = true) as Hloop by (vm_compute; reflexivity).
  assert (tick_now started = 1) as Hone by (vm_compute; reflexivity).
  destruct (rounds_spec (2 ^ 63 - 2) started Ht Hloop) as (Ht' & Hloop' & Htick).
  destruct (round_spec _ Ht' Hloop') as (_ & _ & Hnext).
  set (h := N.iter (2 ^ 63 - 2) round started) in *. clearbody h.
  rewrite Hone in Htick.
  assert (TypedArray.wrap TypedArray.BigInt64 (1 + Z.of_N (2 ^ 63 - 2)) = 2 ^ 63 - 1)
    as Emax by (vm_compute; reflexivity).
  rewrite Emax in Htick. rewrite Htick in Hnext.
  assert (TypedArray.wrap TypedArray.BigInt64 (2 ^ 63 - 1 + 1) = - 2 ^ 63)
    as Emin by (vm_compute; reflexivity).
  rewrite Emin in Hnext.
  split_and!; [unfold tick_now; by rewrite main_world|assumption..|].
  rewrite Hnext, Htick. lia.
Qed.

(** C4, amended: the tick is 0 when the module body first suspends.  Every
    step of the host either leaves it unchanged or is a barrier transition
    ([workersRunning] was 0 and is swapped to the reset value), which takes it
    to the old tick plus 1 in 64-bit arithmetic; as long as the tick is below
    2^63 - 1, a step therefore never lowers it and raises it by at most 1, and
    over a run of fewer than 2^63 - 1 steps the tick never decreases and
    grows by at most the number of steps. *)
Theorem C4_tick_monotone env trace :
  tick_now (main env) = 0 /\
  (forall e,
     let h := run (main env) trace in
     let h' := handle_event h e in
     (tick_now h' = tick_now h \/ barrier_transition h h') /\
     (tick_now h < 2 ^ 63 - 1 -> tick_now h <= tick_now h' <= tick_now h + 1) /\
     (tick_now h < 2 ^ 63 - 1 -> tick_now h' <> tick_now h ->
        barrier_transition h h' /\ tick_now h' = tick_now h + 1)) /\
  (forall more,
     Z.of_nat (length (trace ++ more)) < 2 ^ 63 - 1 ->
     0 <= tick_now (run (main env) trace) /\
     tick_now (run (main env) trace)
       <= tick_now (run (main env) (trace ++ more))
       <= tick_now (run (main env) trace) + Z.of_nat (length more)).
Proof.
  assert (tick_now (main env) = 0) as Hzero by (unfold tick_now; by rewrite main_world).
  pose proof (main_typed env) as Ht0.
  split_and!; [done| |].
  - intros e. cbv zeta. set (h := run (main env) trace).
    assert (typed (world h)) as Ht by by apply run_typed.
    destruct (handle_event_step h e Ht) as (_ & _ & Hcase).
    assert (tick_now h < 2 ^ 63 - 1 ->
            TypedArray.wrap TypedArray.BigInt64 (tick_now h + 1) = tick_now h + 1) as Hw.
    { intros Hmax. apply signed_small; [lia|].
      destruct Ht as [_ _ _ _ ? _]. unfold tick_now in *. lia. }
    split_and!; [done| |].
    + intros Hmax. destruct Hcase as [->|(_ & _ & ->)]; [lia|]. rewrite Hw; lia.
    + intros Hmax Hne. destruct Hcase as [?|Hb]; [done|].
      split; [done|]. destruct Hb as (_ & _ & ->). by apply Hw.
  - intros more Hlen. rewrite length_app in Hlen.
    rewrite run_app.
    pose proof (run_tick_bounds (main env) trace Ht0 ltac:(lia)) as Hfirst.
    pose proof (run_tick_bounds (run (main env) trace) more
                  (run_typed _ _ Ht0) ltac:(lia)) as Hrest.
    lia.
Qed.

Lemma C4_tick_monotone_witness :
  let h := run (main one_core) [message_from (LogicWorker 0) ready; workers_store 0] in
  tick_now h = 1 /\ tick_now (handle_event h animation_frame) = 2 /\
  barrier_transition h (handle_event h animation_frame) /\
  1 <= tick_now (run (main one_core)
                     ([message_from (LogicWorker 0) ready; workers_store 0]
                        ++ [animation_frame; animation_frame])) <= 3.
Proof.
  cbv zeta.
  destruct (C4_tick_monotone one_core
              [message_from (LogicWorker 0) ready; workers_store 0]) as (_ & Hstep & Hrun).
  destruct (Hstep animation_frame) as (_ & _ & Hbarrier).
  assert (tick_now (run (main one_core)
            [message_from (LogicWorker 0) ready; workers_store 0]) = 1) as Hone
    by (vm_compute; reflexivity).
  destruct Hbarrier as [Hb Hnext].
  - rewrite Hone. vm_compute. reflexivity.
  - rewrite Hone. vm_compute. discriminate.
  - specialize (Hrun [animation_frame; animation_frame] ltac:(vm_compute; reflexivity)).
    rewrite Hone in *. split_and!; [done|done|done|lia|].
    change (Z.of_nat (length [animation_frame; animation_frame])) with 2 in Hrun. lia.
Defined.

(** ** The pool size *)

Lemma ToBoolean_nonzero n : JS.ToBoolean n = true <-> JS.nonzero n.
Proof.
  destruct n as [| |q]; cbn; [done|done|].
  rewrite negb_true_iff, <- not_true_iff_false, Qeq_bool_iff. done.
Qed.

Lemma negative_nonzero n : JS.negative n -> JS.nonzero n.
Proof.
  destruct n as [| |q]; cbn; [done|done|].
  intros Hneg Hzero. rewrite Hzero in Hneg. by apply Qlt_irrefl in Hneg.
Qed.

Lemma availableCores_override env n :
  coreOverride env = Some n -> JS.nonzero n -> availableCores env = n.
Proof.
  intros Hset Hn. unfold availableCores, JS.or. rewrite Hset. cbn.
  apply ToBoolean_nonzero in Hn. by rewrite Hn.
Qed.

Lemma availableCores_default env :
  JS.ToBoolean (unary_plus (coreOverride env)) = false ->
  availableCores env = JS.of_Z (Z.max 1 (concurrency env - reservedCores)).
Proof. intros Hfalsy. unfold availableCores, JS.or. by rewrite Hfalsy. Qed.

Lemma reachable_const env trace :
  availableCores_const (run (main env) trace) = availableCores env.
Proof. rewrite run_const by apply main_typed. apply main_const. Qed.

(** C9, as stated, fails: with [coreOverride] set to 0 on a platform that
    reports 8 logical processors the override is set, yet the pool size is
    max(1, 8 - 2) = 6 and not the override's value. *)
Lemma C9_zero_override_is_ignored :
  coreOverride zero_override = Some (JS.of_Z 0) /\
  availableCores zero_override = JS.of_Z 6 /\
  availableCores zero_override <> JS.of_Z 0.
Proof. split_and!; [reflexivity|reflexivity|discriminate]. Qed.

(** C9, amended: the pool size is the override when the override is set to
    a Number other than NaN and zero; when the override is absent, or set to
    something that reads as NaN or zero, it is max(1, c - 2), where c is the
    reported hardware concurrency, or 4 when the platform reports none (or
    reports 0).  The value is fixed when the module body first runs: every
    state the host reaches afterwards carries the same one. *)
Theorem C9_pool_size env :
  (forall n, coreOverride env = Some n -> JS.nonzero n -> availableCores env = n) /\
  (coreOverride env = None \/
   (exists n, coreOverride env = Some n /\ ~ JS.nonzero n) ->
     (forall c, hardwareConcurrency env = Some c -> c <> 0 ->
        availableCores env = JS.of_Z (Z.max 1 (c - 2))) /\
     (hardwareConcurrency env = None \/ hardwareConcurrency env = Some 0 ->
        availableCores env = JS.of_Z (Z.max 1 (4 - 2)))) /\
  (forall trace, availableCores_const (run (main env) trace) = availableCores env).
Proof.
  split_and!; [apply availableCores_override| |apply reachable_const].
  intros Hunset.
  assert (JS.ToBoolean (unary_plus (coreOverride env)) = false) as Hfalsy.
  { destruct Hunset as [->|(n & -> & Hn)]; [done|]. cbn.
    apply not_true_iff_false. by rewrite ToBoolean_nonzero. }
  rewrite (availableCores_default _ Hfalsy). unfold concurrency. split.
  - intros c -> Hc. apply Z.eqb_neq in Hc. by rewrite Hc.
  - by intros [->| ->].
Qed.

Lemma C9_pool_size_witness :
  availableCores {| coreOverride := Some (JS.of_Z 3); hardwareConcurrency := Some 16;
                    logicWorkerConstructs := fun _ => true;
                    renderWorkerConstructs := true; Atomics_waitAsync := true |} = JS.of_Z 3 /\
  availableCores {| coreOverride := Some NaN; hardwareConcurrency := Some 16;
                    logicWorkerConstructs := fun _ => true;
                    renderWorkerConstructs := true; Atomics_waitAsync := true |} = JS.of_Z 14 /\
  availableCores {| coreOverride := None; hardwareConcurrency := None;
                    logicWorkerConstructs := fun _ => true;
                    renderWorkerConstructs := true; Atomics_waitAsync := true |} = JS.of_Z 2.
Proof.
  split_and!.
  - apply (proj1 (C9_pool_size _)); [reflexivity|]. cbn. discriminate.
  - destruct (C9_pool_size
      {| coreOverride := Some NaN; hardwareConcurrency := Some 16;
         logicWorkerConstructs := fun _ => true;
         renderWorkerConstructs := true; Atomics_waitAsync := true |}) as (_ & Hdefault & _).
    destruct Hdefault as [Hreported _].
    + right. exists NaN. split; [reflexivity|]. cbn. tauto.
    + exact (Hreported 16 eq_refl ltac:(lia)).
  - destruct (C9_pool_size
      {| coreOverride := None; hardwareConcurrency := None;
         logicWorkerConstructs := fun _ => true;
         renderWorkerConstructs := true; Atomics_waitAsync := true |}) as (_ & Hdefault & _).
    destruct Hdefault as [_ Hsilent]; [by left|].
    apply Hsilent. by left.
Defined.

(** Once [Array(availableCores)] has thrown, the host does nothing more:
    no worker exists whose message could arrive and no frame is requested. *)
Lemma aborted_forever env trace :
  JS.Array_length (availableCores env) = None ->
  let h := run (main env) trace in
  at_stage h = Thrown JS.RangeError /\ pendingLogicCores h = [] /\
  pendingRenderCore h = None /\ frameLoop h = false /\
  effects h = waitAsync_warning env.
Proof.
  intros Hthrows. cbv zeta.
  induction trace as [|e trace (Hs & Hps & Hr & Hloop & Heff)] using rev_ind.
  - unfold main. cbv zeta. by rewrite Hthrows.
  - rewrite run_snoc. destruct e as [[j|] m| |v]; cbn; rewrite ?Hps, ?Hr, ?Hloop; done.
Qed.

(** C10: an override set to any Number other than NaN and zero becomes the
    pool size as it is.  When that Number is negative, [Array(availableCores)]
    throws a RangeError, the module body stops there, and no worker is ever
    created: no promise exists, none for the render worker either, and all
    the host has done, in its first run and in any run after it, is to write
    the warning of line 15 where [Atomics.waitAsync] is missing.  With no
    override set the pool size is an integer of at least 1. *)
Theorem C10_override_not_validated :
  (forall env n, coreOverride env = Some n -> JS.nonzero n -> availableCores env = n) /\
  (forall env n, coreOverride env = Some n -> JS.negative n ->
     availableCores env = n /\
     JS.Array_length (availableCores env) = None /\
     at_stage (main env) = Thrown JS.RangeError /\
     pendingLogicCores (main env) = [] /\
     pendingRenderCore (main env) = None /\
     effects (main env) = waitAsync_warning env /\
     (forall trace,
        at_stage (run (main env) trace) = Thrown JS.RangeError /\
        pendingLogicCores (run (main env) trace) = [] /\
        pendingRenderCore (run (main env) trace) = None /\
        frameLoop (run (main env) trace) = false /\
        effects (run (main env) trace) = waitAsync_warning env)) /\
  (forall env, coreOverride env = None ->
     exists k, availableCores env = JS.of_Z k /\ 1 <= k).
Proof.
  split_and!; [apply availableCores_override| |].
  - intros env n Hset Hneg.
    pose proof (availableCores_override env n Hset (negative_nonzero _ Hneg)) as Hn.
    pose proof (Array_length_negative _ Hneg) as Hthrows.
    split_and!; [done| |..].
    + by rewrite Hn.
    + unfold main. cbv zeta. by rewrite Hn, Hthrows.
    + unfold main. cbv zeta. by rewrite Hn, Hthrows.
    + unfold main. cbv zeta. by rewrite Hn, Hthrows.
    + unfold main. cbv zeta. by rewrite Hn, Hthrows.
    + intros trace. apply aborted_forever. by rewrite Hn.
  - intros env Hunset. exists (Z.max 1 (concurrency env - reservedCores)).
    split; [|lia]. apply availableCores_default. by rewrite Hunset.
Qed.

Lemma C10_override_not_validated_witness :
  let env := {| coreOverride := Some (JS.of_Z (-1)); hardwareConcurrency := Some 8;
                logicWorkerConstructs := fun _ => true;
                renderWorkerConstructs := true; Atomics_waitAsync := true |} in
  availableCores env = JS.of_Z (-1) /\
  JS.Array_length (availableCores env) = None /\
  at_stage (main env) = Thrown JS.RangeError /\
  exists k, availableCores one_core = JS.of_Z k /\ 1 <= k.
Proof.
  cbv zeta. destruct C10_override_not_validated as (_ & Hneg & Hunset).
  destruct (Hneg {| coreOverride := Some (JS.of_Z (-1)); hardwareConcurrency := Some 8;
                    logicWorkerConstructs := fun _ => true;
                    renderWorkerConstructs := true; Atomics_waitAsync := true |} (JS.of_Z (-1)))
    as (Hn & Hthrows & Hstage & _); [reflexivity|reflexivity|].
  split_and!; [exact Hn|exact Hthrows|exact Hstage|].
  apply Hunset. reflexivity.
Defined.

(** ** The listener *)

(** A message with both a payload and an error is logged and dropped,
    whatever its kind. *)
Lemma listener_malformed cbs m h :
  defined (error m) = true -> is_Some (data m) ->
  listener cbs m h
    = (emit [console error_level
               [VString ("malformed message '" +:+ type m +:+ "', has both data and error")]] h,
       Normal).
Proof.
  intros Herror Hdata. unfold listener. rewrite Herror.
  by rewrite bool_decide_eq_true_2.
Qed.

(** A message of unknown kind that carries an error has the error logged
    and is dropped. *)
Lemma listener_unknown_error cbs m h :
  defined (error m) = true -> data m = None ->
  get_property (err cbs) (type m) = Missing ->
  listener cbs m h = (emit [console error_level [error m]] h, Normal).
Proof.
  intros Herror Hdata Hmissing. unfold listener. rewrite Herror, Hdata.
  rewrite bool_decide_eq_false_2 by (by intros [? ?]). cbn.
  by rewrite Hmissing.
Qed.

(** A message of unknown kind without an error is logged, and then the
    listener throws. *)
Lemma listener_unknown_ok cbs m h :
  defined (error m) = false ->
  get_property (ok cbs) (type m) = Missing ->
  listener cbs m h
    = (emit [console error_level
               [VString ("Unknown main event 'ok." +:+ type m +:+ "'.")]] h,
       Throw JS.TypeError).
Proof.
  intros Herror Hmissing. unfold listener. rewrite Herror. cbn.
  by rewrite Hmissing.
Qed.

(** C6: a message of unknown kind with neither payload nor error is logged
    and then leaves the listener by a TypeError: [callback] is the
    [undefined] that [console.error(...)] returned, and calling it throws.
    No variable of the host changes. *)
Theorem C6_unknown_kind_throws h i :
  listener (logic_callbacks i) bogus h
    = (emit [console error_level [VString "Unknown main event 'ok.bogus'."]] h,
       Throw JS.TypeError) /\
  effects (handle_event (main one_core) (message_from (LogicWorker 0) bogus))
    = [console error_level [VString "Unknown main event 'ok.bogus'."];
       uncaught JS.TypeError].
Proof. split; vm_compute; reflexivity. Qed.

(** ** A pool smaller than requested *)

(** C1: four logic workers are requested, the constructor of the fourth
    throws and the other three signal [ready].  [start] goes to three workers
    with a worker count of 3, yet the barrier swaps [workersRunning] to 4, at
    start-up and again at the next tick advance. *)
Theorem C1_reset_value_is_requested_count :
  let h := run (main three_of_four)
               [message_from (LogicWorker 0) ready; message_from (LogicWorker 1) ready;
                message_from (LogicWorker 2) ready] in
  availableCores three_of_four = JS.of_Z 4 /\
  pendingLogicCores h = [Fulfilled; Fulfilled; Fulfilled; Rejected] /\
  logicCores h = [0; 1; 2]%nat /\
  effects h =
    [ postMessage (LogicWorker 0) "hello" [];
      postMessage (LogicWorker 1) "hello" [];
      postMessage (LogicWorker 2) "hello" [];
      postMessage (LogicWorker 0) "start" [VNumber (JS.of_Z 0); VNumber (JS.of_Z 3); VWorld];
      postMessage (LogicWorker 1) "start" [VNumber (JS.of_Z 1); VNumber (JS.of_Z 3); VWorld];
      postMessage (LogicWorker 2) "start" [VNumber (JS.of_Z 2); VNumber (JS.of_Z 3); VWorld];
      console info [VString "Loaded 3/4 logic cores."];
      notify_tick ] /\
  running_now h = 4 /\
  running_now (round h) = 4 /\
  tick_now (round h) = 2.
Proof. cbv zeta. split_and!; vm_compute; reflexivity. Qed.

(** ** The start-up handshake *)

(** *** Promises *)

Lemma forallb_settled (ps : list promise) : forallb settled ps = true <-> Pending ∉ ps.
Proof.
  induction ps as [|p ps IH]; cbn.
  - split; [intros _; apply not_elem_of_nil|done].
  - rewrite andb_true_iff, IH, not_elem_of_cons. destruct p; cbn; intuition congruence.
Qed.

Lemma forallb_unsettled (ps : list promise) : forallb settled ps = false <-> Pending ∈ ps.
Proof.
  rewrite <- not_true_iff_false, forallb_settled.
  split; [|by intros ? ?]. intros Hnn.
  destruct (decide (Pending ∈ ps)) as [?|Hn]; [done|by destruct Hnn].
Qed.

Lemma resolve_settled (i : nat) (ps : list promise) :
  Pending ∉ ps -> alter resolve i ps = ps.
Proof.
  intros Hsettled. apply list_eq. intros j.
  destruct (decide (i = j)) as [->|Hne].
  - rewrite list_lookup_alter_eq. destruct (ps !! j) as [p|] eqn:E; [|done]. cbn.
    destruct p; try done. destruct Hsettled. by eapply list_elem_of_lookup_2.
  - by rewrite list_lookup_alter_ne.
Qed.

Lemma resolve_lookup (i j : nat) (ps : list promise) :
  alter resolve i ps !! j = Some Fulfilled ->
  ps !! j = Some Fulfilled \/ (i = j /\ ps !! j = Some Pending).
Proof.
  destruct (decide (i = j)) as [->|Hne].
  - rewrite list_lookup_alter_eq. destruct (ps !! j) as [[]|]; cbn; naive_solver.
  - rewrite list_lookup_alter_ne by done. by left.
Qed.

Lemma elem_of_fulfilled_from (i j : nat) (ps : list promise) :
  j ∈ fulfilled_from i ps <-> (i <= j)%nat /\ ps !! (j - i)%nat = Some Fulfilled.
Proof.
  revert i. induction ps as [|p ps IH]; intros i; cbn.
  - rewrite elem_of_nil. split; [done|]. by intros [_ ?].
  - assert (j ∈ fulfilled_from (S i) ps <->
            (i < j)%nat /\ (p :: ps) !! (j - i)%nat = Some Fulfilled) as Htail.
    { rewrite IH. split; intros [Hle Hj]; (split; [lia|]).
      - by replace (j - i)%nat with (S (j - S i)) by lia.
      - by replace (j - i)%nat with (S (j - S i)) in Hj by lia. }
    destruct p.
    + rewrite Htail. split; [intros [? ?]; split; [lia|done]|].
      intros [Hle Hj]. split; [|done].
      destruct (decide (i = j)) as [->|]; [|lia]. by rewrite Nat.sub_diag in Hj.
    + rewrite elem_of_cons, Htail. split.
      * intros [->|[? ?]]; [by rewrite Nat.sub_diag|split; [lia|done]].
      * intros [Hle Hj]. destruct (decide (i = j)) as [->|]; [by left|right].
        split; [lia|done].
    + rewrite Htail. split; [intros [? ?]; split; [lia|done]|].
      intros [Hle Hj]. split; [|done].
      destruct (decide (i = j)) as [->|]; [|lia]. by rewrite Nat.sub_diag in Hj.
Qed.

Lemma elem_of_logicCores h i :
  i ∈ logicCores h <-> pendingLogicCores h !! i = Some Fulfilled.
Proof.
  unfold logicCores. rewrite elem_of_fulfilled_from, Nat.sub_0_r.
  split; [by intros [_ ?]|]. split; [lia|done].
Qed.

Lemma fulfilled_from_NoDup i ps : NoDup (fulfilled_from i ps).
Proof.
  revert i. induction ps as [|p ps IH]; intros i; cbn; [constructor|].
  destruct p; try apply IH. constructor; [|apply IH].
  rewrite elem_of_fulfilled_from. lia.
Qed.

(** *** One message *)

(** The callbacks a worker's tables hold. *)
Lemma callbacks_of_own w (error_given : bool) key cb :
  get_property (if error_given then err (callbacks_of w) else ok (callbacks_of w)) key
    = Own cb ->
  cb = pong \/
  (exists i, w = LogicWorker i /\ cb = ready_logic i /\ key = "ready") \/
  (w = RenderWorker /\ cb = ready_render).
Proof.
  unfold get_property.
  destruct (_ !! key) as [cb'|] eqn:E; [|by case_bool_decide].
  intros [= <-]. destruct error_given; [by destruct w|].
  destruct w as [i|]; cbn in E.
  - apply lookup_insert_Some in E as [[<- <-]|[_ E]]; [right; left; by exists i|].
    apply lookup_insert_Some in E as [[_ <-]|[_ E]]; [by left|].
    apply lookup_insert_Some in E as [[_ <-]|[_ E]]; [by left|done].
  - apply lookup_insert_Some in E as [[_ <-]|[_ E]]; [by right; right|].
    apply lookup_insert_Some in E as [[_ <-]|[_ E]]; [by left|].
    apply lookup_insert_Some in E as [[_ <-]|[_ E]]; [by left|done].
Qed.

Lemma listened_refl w m h es :
  Forall (fun e => kind_of e = Quiet) es -> listened w m h (emit es h).
Proof. intros Hes. split; try done; [|by left]. exists es. split_and!; [done..|by left]. Qed.

Lemma listened_report w m h h1 c : listened w m h h1 -> listened w m h (report c h1).
Proof.
  intros [(es & Hes & Hq & Hps) Hw Hs Hf Hc Hr]. destruct c as [|e]; try by split; eauto.
  split; try done. exists (es ++ [uncaught e]). cbn. rewrite Hes, <- (assoc_L (++)).
  split_and!; [done|by apply Forall_app; split; [|repeat constructor]|].
  destruct Hps as [?|(i & ? & ? & ? & ?)]; [by left|right].
  exists i. split_and!; [done..|]. apply elem_of_app. by left.
Qed.

Lemma listener_listened w m h : listened w m h (listener (callbacks_of w) m h).1.
Proof.
  unfold listener. destruct (_ && _); cbn [fst].
  { apply listened_refl. by repeat constructor. }
  destruct (get_property _ _) as [cb| |] eqn:E; cbn [fst].
  - assert (get_property (if defined (error m) then err (callbacks_of w)
                          else ok (callbacks_of w)) (type m) = Own cb) as E'
      by by destruct (defined _).
    apply callbacks_of_own in E' as [->|[(i & -> & -> & Hready)|[-> ->]]]; unfold invoke.
    + apply listened_refl. by repeat constructor.
    + split; try done; [|by left].
      exists [hello i]. split_and!; [done|by repeat constructor|].
      right. exists i. split_and!; [done..|]. apply list_elem_of_singleton. done.
    + split; try done; [|by right].
      exists []. cbn. rewrite app_nil_r. split_and!; [done|constructor|by left].
  - split; try done; [|by left].
    exists []. rewrite app_nil_r. split_and!; [done|constructor|by left].
  - destruct (defined _); cbn [fst]; apply listened_refl; by repeat constructor.
Qed.

Lemma handle_message h w m :
  exists_worker h w = true ->
  exists h1, listened w m h h1 /\ handle_event h (message_from w m) = resume h1.
Proof.
  intros Hw. cbn. rewrite Hw.
  pose proof (listener_listened w m h) as Hl.
  destruct (listener _ m h) as [h1 c]. exists (report c h1).
  split; [by apply listened_report|done].
Qed.

(** *** The continuations *)

Lemma advanceTick_effects h :
  exists es, effects (advanceTick h) = effects h ++ es /\
    Forall (fun e => kind_of e = Quiet \/ kind_of e = Simulation) es /\
    frameLoop (advanceTick h) = true /\
    pendingLogicCores (advanceTick h) = pendingLogicCores h /\
    pendingRenderCore (advanceTick h) = pendingRenderCore h /\
    at_stage (advanceTick h) = at_stage h.
Proof.
  destruct (decide (TypedArray.cells (workersRunning (world h)) 0 = 0)) as [E|E].
  - rewrite (advanceTick_swapped _ E). exists [notify_tick].
    split_and!; try done. constructor; [by right|constructor].
  - rewrite (advanceTick_missed _ E). exists []. cbn. rewrite app_nil_r.
    split_and!; try done.
Qed.

Lemma logicCores_eq h k :
  pendingLogicCores k = pendingLogicCores h -> logicCores k = logicCores h.
Proof. unfold logicCores. by intros ->. Qed.

Lemma start_messages_nil : start_messages [] = [].
Proof. reflexivity. Qed.

Lemma resume_logic_progress h :
  progress h -> progress (resume_logic h) /\ suspended (resume_logic h).
Proof.
  intros Hp. unfold resume_logic, suspended.
  destruct Hp as [? Hs| Hs Hloop Htick Hquiet Hhello | Hs | Hs].
  1: by rewrite Hs; split; [apply aborted|intros; congruence].
  2: by rewrite Hs; split; [apply failed|intros; congruence].
  2: { destruct (at_stage h) eqn:E; [by destruct Hs|..];
         (split; [apply started; rewrite ?E; done|intros; congruence]). }
  rewrite Hs. destruct (forallb _ _) eqn:Hall;
    [|split; [by apply waiting|done]].
  apply forallb_settled in Hall. unfold after_logic_cores. case_bool_decide as Hnone.
  - apply length_zero_iff_nil in Hnone. split; [|done]. apply failed; try done.
    rewrite Hnone, start_messages_nil. cbn.
    eexists (effects h ++ [_]), []. rewrite app_nil_r, <- !(assoc_L (++)).
    split_and!; [done| |constructor].
    apply Forall_app. split; [done|by repeat constructor].
  - match goal with |- context [advanceTick ?k] =>
      destruct (advanceTick_effects k) as (es & Hes & Hsim & Hloop' & Hps & _ & _);
      assert (logicCores (set_stage AwaitingRenderCore (advanceTick k)) = logicCores h)
        as Hcores by (apply logicCores_eq; exact Hps)
    end.
    cbn in Hes, Hps. split; [|done]. apply started; rewrite ?Hcores; cbn; try done.
    + by rewrite Hps.
    + intros Hnil. by rewrite Hnil in Hnone.
    + rewrite Hes. eexists (effects h), (_ :: es). rewrite <- !(assoc_L (++)).
      split_and!; [done|done| |].
      * intros i Hi. by apply Hhello, elem_of_logicCores.
      * constructor; [by left|done].
Qed.

Lemma resume_render_progress h :
  progress h -> suspended h ->
  progress (resume_render h) /\ suspended (resume_render h).
Proof.
  intros Hp Hsusp. unfold resume_render.
  destruct (at_stage h) eqn:Hs; try done.
  unfold after_render_core. destruct (pendingRenderCore h) as [[]|]; try done.
  - destruct Hp as [? Hs'| Hs' | Hs' | _ Hsettled Hcores Hloop (pre & post & Hes & Hpre & Hhello & Hpost)];
      try congruence.
    split; [|by intros [=]]. apply started; try done.
    rewrite (logicCores_eq h) by done. cbn.
    eexists pre, (post ++ _). rewrite Hes, <- !(assoc_L (++)).
    split_and!; [done..|]. apply Forall_app. split; [done|].
    repeat constructor; by (left + right).
  - destruct Hp as [? Hs'| Hs' | Hs' | _ Hsettled Hcores Hloop Heffects];
      try congruence.
    split; [|by intros [=]]. by apply started.
Qed.

Lemma resume_progress h :
  progress h -> progress (resume h) /\ suspended (resume h).
Proof.
  intros Hp. unfold resume.
  destruct (resume_logic_progress h Hp). by apply resume_render_progress.
Qed.

(** *** The invariant *)

Lemma listened_progress w m h h1 :
  exists_worker h w = true -> listened w m h h1 -> progress h -> progress h1.
Proof.
  intros Hw [(es & Hes & Hquiet & Hps) Hworld Hs Hloop Hc Hr] Hp.
  assert (tick_now h1 = tick_now h) as Htick by (unfold tick_now; by rewrite Hworld).
  assert (Pending ∉ pendingLogicCores h -> pendingLogicCores h1 = pendingLogicCores h)
    as Hsame.
  { intros Hsettled. destruct Hps as [?|(i & _ & _ & -> & _)]; [done|].
    by apply resolve_settled. }
  destruct Hp as [_ _ Hnone Hrender| Hs' Hloop' Htick' Hq Hhello
                 | Hs' Hsettled Hcores Hloop' Htick' (pre & post & Heff & Hpre & Hpost)
                 | Hs' Hsettled Hcores Hloop' (pre & post & Heff & Hpre & Hhello & Hpost)].
  - exfalso. destruct w; cbn in Hw; by rewrite ?Hnone, ?Hrender in Hw.
  - apply waiting; try congruence.
    + rewrite Hes. by apply Forall_app.
    + intros i Hi. rewrite Hes. apply elem_of_app.
      destruct Hps as [Hsame'|(j & _ & _ & Halter & Hj)].
      * left. apply Hhello. by rewrite <- Hsame'.
      * rewrite Halter in Hi. apply resolve_lookup in Hi as [?|[<- _]]; [left|right]; auto.
  - specialize (Hsame Hsettled). apply failed; try congruence.
    + by rewrite (logicCores_eq h).
    + exists pre, (post ++ es). rewrite Hes, Heff, <- !(assoc_L (++)).
      split_and!; [done..|]. by apply Forall_app.
  - specialize (Hsame Hsettled). apply started; try congruence.
    + by rewrite (logicCores_eq h).
    + rewrite (logicCores_eq h) by done.
      exists pre, (post ++ es). rewrite Hes, Heff, <- !(assoc_L (++)).
      split_and!; [done..|]. apply Forall_app. split; [done|].
      eapply Forall_impl; [exact Hquiet|]. by left.
Qed.

Lemma progress_step h e :
  progress h -> suspended h ->
  progress (handle_event h e) /\ suspended (handle_event h e).
Proof.
  intros Hp Hsusp. destruct e as [w m| |v].
  - destruct (exists_worker h w) eqn:Hw; [|by cbn; rewrite Hw].
    destruct (handle_message h w m Hw) as (h1 & Hl & ->).
    by eapply resume_progress, listened_progress.
  - cbn. destruct (frameLoop h) eqn:Hloop; [|done].
    destruct (advanceTick_effects h) as (es & Hes & Hsim & Hloop' & Hps & Hr & Hs).
    split; [|unfold suspended; by rewrite Hs, Hps].
    destruct Hp as [| | | Hs' Hsettled Hcores _ (pre & post & Heff & Hpre & Hhello & Hpost)];
      try congruence.
    apply started; try congruence.
    + by rewrite (logicCores_eq h).
    + rewrite (logicCores_eq h) by done.
      exists pre, (post ++ es). rewrite Hes, Heff, <- !(assoc_L (++)).
      split_and!; [done..|]. by apply Forall_app.
  - split; [|done]. cbn.
    destruct Hp; [by apply aborted|by apply waiting|by apply failed|by apply started].
Qed.

Lemma main_progress env : progress (main env) /\ suspended (main env).
Proof.
  assert (Forall (fun e => kind_of e = Quiet) (waitAsync_warning env)) as Hwarned.
  { unfold waitAsync_warning. destruct (Atomics_waitAsync env); by repeat constructor. }
  unfold main. cbv zeta. destruct (JS.Array_length _) as [len|] eqn:Hlen.
  - apply resume_progress, waiting; try done.
    intros i. cbn. rewrite list_lookup_fmap.
    destruct (seq 0 len !! i) as [j|]; [|done]. cbn. unfold pending_core.
    by destruct (logicWorkerConstructs env j).
  - split; [|done]. by apply aborted.
Qed.

Lemma reachable_progress env trace :
  progress (run (main env) trace) /\ suspended (run (main env) trace).
Proof.
  induction trace as [|e trace [Hp Hs]] using rev_ind; [apply main_progress|].
  rewrite run_snoc. by apply progress_step.
Qed.

(** *** Promises over a run *)

Lemma resume_promises h : pendingLogicCores (resume h) = pendingLogicCores h.
Proof.
  assert (forall k, pendingLogicCores (resume_render k) = pendingLogicCores k) as Hrender.
  { intros k. unfold resume_render, after_render_core.
    destruct (at_stage k); try done. by destruct (pendingRenderCore k) as [[]|]. }
  unfold resume. rewrite Hrender. unfold resume_logic.
  destruct (at_stage h); try done. destruct (forallb _ _); [|done].
  unfold after_logic_cores. case_bool_decide; [done|]. cbn.
  match goal with |- context [advanceTick ?k] =>
    by destruct (advanceTick_effects k) as (_ & _ & _ & _ & -> & _) end.
Qed.

(** Only a [ready] message from its own worker changes a promise. *)
Lemma handle_event_promise h e i :
  ~ signals_ready i e ->
  pendingLogicCores (handle_event h e) !! i = pendingLogicCores h !! i.
Proof.
  intros Hsilent. destruct e as [w m| |v]; [|cbn|done].
  - destruct (exists_worker h w) eqn:Hw; [|by cbn; rewrite Hw].
    destruct (handle_message h w m Hw) as (h1 & [(es & _ & _ & Hps) _ _ _ _ _] & ->).
    rewrite resume_promises.
    destruct Hps as [->|(j & -> & Hready & -> & _)]; [done|].
    apply list_lookup_alter_ne. intros ->. by apply Hsilent.
  - destruct (frameLoop h); [|done].
    by destruct (advanceTick_effects h) as (_ & _ & _ & _ & -> & _).
Qed.

Lemma silent_worker_stays_pending h trace i :
  Forall (fun e => ~ signals_ready i e) trace ->
  pendingLogicCores (run h trace) !! i = pendingLogicCores h !! i.
Proof.
  induction trace as [|e trace IH] using rev_ind; [done|].
  intros [Htrace He]%Forall_app. rewrite run_snoc.
  rewrite Forall_singleton in He.
  rewrite handle_event_promise by done. by apply IH.
Qed.

(** The promises the module body makes (lines 110-130). *)
Lemma main_promises env len :
  JS.Array_length (availableCores env) = Some len ->
  pendingLogicCores (main env) = pending_core env <$> seq 0 len.
Proof. intros Hlen. unfold main. cbv zeta. rewrite Hlen. by rewrite resume_promises. Qed.

(** *** Counting [start] messages *)

Lemma quiet_not_start e : kind_of e = Quiet -> kind_of e <> Start.
Proof. by intros ->. Qed.

Lemma running_not_start e :
  kind_of e = Quiet \/ kind_of e = Simulation -> kind_of e <> Start.
Proof. by intros [-> | ->]. Qed.

Lemma not_start_to i e : kind_of e <> Start -> is_start_to i e = false.
Proof.
  destruct e as [[j|] t d| | | | |]; cbn; try done.
  destruct (String.eqb t "start"); [done|]. by rewrite andb_false_r.
Qed.

Lemma start_message_kind n k i : kind_of (start_message n k i) = Start.
Proof. reflexivity. Qed.

Lemma start_message_to n k i j :
  is_start_to j (start_message n k i) = bool_decide (i = j).
Proof.
  cbn. rewrite andb_true_r. case_bool_decide; [by apply Nat.eqb_eq|by apply Nat.eqb_neq].
Qed.

Lemma imap_start_other (g : nat -> nat -> effect) (l : list nat) j :
  (forall k i, i ∈ l -> is_start_to j (g k i) = false) ->
  Forall (fun e => is_start_to j e = false) (imap g l).
Proof.
  revert g. induction l as [|i l IH]; intros g Hg; cbn; constructor.
  - apply Hg. by left.
  - apply IH. intros k i' Hi'. apply Hg. by right.
Qed.

(** In the messages of [logicCores.forEach] exactly one goes to each core:
    the one that carries its position and the length of the array. *)
Lemma start_messages_split cores k i :
  NoDup cores -> cores !! k = Some i ->
  exists l1 l2,
    start_messages cores = l1 ++ [start_message (length cores) k i] ++ l2 /\
    Forall (fun e => is_start_to i e = false) l1 /\
    Forall (fun e => is_start_to i e = false) l2.
Proof.
  intros Hnodup Hk. unfold start_messages.
  pose proof (take_drop_middle _ _ _ Hk) as Hsplit.
  pose proof (lookup_lt_Some _ _ _ Hk) as Hlt.
  rewrite <- Hsplit in Hnodup.
  apply NoDup_app in Hnodup as (_ & Hleft & [Hright _]%NoDup_cons).
  generalize (length cores) as n. intros n.
  rewrite <- Hsplit. rewrite imap_app, imap_cons, length_take_le by lia.
  rewrite Nat.add_0_r. eexists _, _. split_and!; [done| |].
  - apply imap_start_other. intros k' i' Hi'. rewrite start_message_to.
    case_bool_decide as E; [|done]. subst. destruct (Hleft _ Hi'). by left.
  - apply imap_start_other. intros k' i' Hi'. cbn [compose].
    rewrite start_message_to. case_bool_decide as E; [|done]. by subst.
Qed.

Lemma start_messages_kind cores :
  Forall (fun e => kind_of e = Start) (start_messages cores).
Proof.
  unfold start_messages.
  assert (forall (g : nat -> nat -> effect) (l : list nat),
            (forall k i, kind_of (g k i) = Start) ->
            Forall (fun e => kind_of e = Start) (imap g l)) as Himap.
  { intros g l. revert g. induction l as [|c l IH]; intros g Hg; cbn; constructor.
    - apply Hg.
    - apply IH. intros k i. apply Hg. }
  apply Himap. intros k i. apply start_message_kind.
Qed.

Lemma filter_none (f : effect -> bool) l :
  Forall (fun e => f e = false) l -> List.filter f l = [].
Proof. induction 1 as [|e l He _ IH]; cbn; [done|]. by rewrite He. Qed.

Lemma alter_resolve_fulfilled (i : nat) (ps : list promise) :
  ps !! i = Some Fulfilled -> alter resolve i ps = ps.
Proof.
  intros Hi. apply list_eq. intros j. destruct (decide (i = j)) as [<-|Hne].
  - by rewrite list_lookup_alter_eq, Hi.
  - by rewrite list_lookup_alter_ne.
Qed.

Lemma resume_render_effects h :
  exists es, effects (resume_render h) = effects h ++ es /\
    Forall (fun e => kind_of e = Quiet \/ kind_of e = Simulation) es.
Proof.
  unfold resume_render, after_render_core.
  destruct (at_stage h); try (exists []; by rewrite app_nil_r).
  destruct (pendingRenderCore h) as [[]|]; try (exists []; by rewrite app_nil_r).
  eexists. split; [done|]. repeat constructor; by (left + right).
Qed.

(** While a promise is pending the module body is suspended at line 152
    and the host has done nothing but acknowledge and log. *)
Lemma waiting_while_pending env trace :
  let h := run (main env) trace in
  Pending ∈ pendingLogicCores h ->
  at_stage h = AwaitingLogicCores /\ frameLoop h = false /\ tick_now h = 0 /\
  Forall (fun e => kind_of e = Quiet) (effects h).
Proof.
  cbv zeta. intros Hpending.
  destruct (reachable_progress env trace)
    as [[_ _ Hnone| | _ Hsettled | _ Hsettled] _]; try done.
  rewrite Hnone in Hpending. by apply elem_of_nil in Hpending.
Qed.

(** A worker that stays silent after the trace [before] keeps the host
    waiting, whatever else happens. *)
Lemma silent_worker_blocks env before rest i :
  pendingLogicCores (run (main env) before) !! i = Some Pending ->
  Forall (fun e => ~ signals_ready i e) rest ->
  let h := run (main env) (before ++ rest) in
  pendingLogicCores h !! i = Some Pending /\
  at_stage h = AwaitingLogicCores /\ frameLoop h = false /\ tick_now h = 0 /\
  Forall (fun e => kind_of e = Quiet) (effects h).
Proof.
  intros Hi Hsilent. cbv zeta.
  assert (pendingLogicCores (run (main env) (before ++ rest)) !! i = Some Pending)
    as Hstill by (by rewrite run_app, silent_worker_stays_pending).
  split; [done|]. apply waiting_while_pending. by eapply list_elem_of_lookup_2.
Qed.

(** Decides, by evaluation, that no promise of a concrete list is pending. *)
Ltac none_pending :=
  vm_compute;
  let Hin := fresh "Hin" in
  intros Hin;
  repeat (apply elem_of_cons in Hin as [Hin|Hin]; [discriminate|]);
  by apply elem_of_nil in Hin.

(** *** What start-up guarantees *)




(** C5, as stated, fails: with two logic workers requested, the first
    signals [ready] (twice) and is sent [hello] each time, but it is sent no
    [start], and none in any continuation in which the second worker sends no
    [ready]. *)
Lemma C5_ready_worker_without_start :
  (let h := run (main two_cores)
                [message_from (LogicWorker 0) ready; message_from (LogicWorker 0) ready;
                 animation_frame] in
   pendingLogicCores h !! 0%nat = Some Fulfilled /\
   effects h = [hello 0; hello 0] /\
   List.filter (is_start_to 0) (effects h) = []) /\
  (forall rest,
     Forall (fun e => ~ signals_ready 1 e) rest ->
     let h := run (main two_cores)
                  ([message_from (LogicWorker 0) ready; message_from (LogicWorker 0) ready]
                     ++ rest) in
     List.filter (is_start_to 0) (effects h) = []).
Proof.
  split; [cbv zeta; split_and!; vm_compute; reflexivity|].
  intros rest Hsilent.
  destruct (silent_worker_blocks two_cores
              [message_from (LogicWorker 0) ready; message_from (LogicWorker 0) ready]
              rest 1)
    as (_ & _ & _ & _ & Hquiet); [vm_compute; reflexivity|done|].
  cbv zeta. apply filter_none. eapply Forall_impl; [exact Hquiet|].
  intros e He. by apply not_start_to, quiet_not_start.
Qed.

(** C5, amended: a logic worker whose promise is fulfilled has been sent
    [hello].  While some promise is still pending it has been sent no [start];
    once none is pending it has been sent exactly one, after that [hello],
    carrying its zero-based position among the started workers, their number,
    and the world.  A further message from that worker, a duplicate [ready]
    included, adds no [start]. *)
Theorem C5_hello_then_one_start env trace i :
  let h := run (main env) trace in
  pendingLogicCores h !! i = Some Fulfilled ->
  hello i ∈ effects h /\
  (Pending ∈ pendingLogicCores h ->
     Forall (fun e => is_start_to i e = false) (effects h)) /\
  (Pending ∉ pendingLogicCores h ->
     exists coreNumber before after,
       logicCores h !! coreNumber = Some i /\
       effects h =
         before
         ++ [postMessage (LogicWorker i) "start"
               [VNumber (JS.of_nat coreNumber);
                VNumber (JS.of_nat (length (logicCores h))); VWorld]]
         ++ after /\
       hello i ∈ before /\
       Forall (fun e => is_start_to i e = false) before /\
       Forall (fun e => is_start_to i e = false) after) /\
  (forall m,
     List.filter (is_start_to i)
                 (effects (handle_event h (message_from (LogicWorker i) m)))
     = List.filter (is_start_to i) (effects h)).
Proof.
  cbv zeta. set (h := run (main env) trace). intros Hi.
  destruct (reachable_progress env trace) as [Hp Hsusp]. fold h in Hp, Hsusp.
  assert (i ∈ logicCores h) as Hcore by by apply elem_of_logicCores.
  split_and!.
  - destruct Hp as [_ _ Hnone| _ _ _ _ Hhello | _ _ Hcores | _ _ _ _ (pre & post & -> & _ & Hhello & _)].
    + by rewrite Hnone in Hi.
    + by apply Hhello.
    + rewrite Hcores in Hcore. by apply elem_of_nil in Hcore.
    + apply elem_of_app. left. by apply Hhello.
  - intros Hpending.
    destruct Hp as [_ _ Hnone| _ _ _ Hquiet _ | _ Hsettled | _ Hsettled]; try done.
    + by rewrite Hnone in Hi.
    + eapply Forall_impl; [exact Hquiet|]. intros e He.
      by apply not_start_to, quiet_not_start.
  - intros Hsettled.
    destruct Hp as [_ _ Hnone| Hs | _ _ Hcores | _ _ _ _ (pre & post & Heff & Hpre & Hhello & Hpost)].
    + by rewrite Hnone in Hi.
    + specialize (Hsusp Hs). apply forallb_unsettled in Hsusp. done.
    + rewrite Hcores in Hcore. by apply elem_of_nil in Hcore.
    + apply list_elem_of_lookup_1 in Hcore as [k Hk].
      destruct (start_messages_split (logicCores h) k i) as (l1 & l2 & Hsplit & Hl1 & Hl2);
        [apply fulfilled_from_NoDup|done|].
      exists k, (pre ++ l1), (l2 ++ post).
      split_and!; [done| | | |].
      * rewrite Heff, Hsplit. unfold start_message. by rewrite <- !(assoc_L (++)).
      * apply elem_of_app. left. apply Hhello. by eapply list_elem_of_lookup_2.
      * apply Forall_app. split; [|done]. eapply Forall_impl; [exact Hpre|].
        intros e He. by apply not_start_to, quiet_not_start.
      * apply Forall_app. split; [done|]. eapply Forall_impl; [exact Hpost|].
        intros e He. by apply not_start_to, running_not_start.
  - intros m.
    assert (exists_worker h (LogicWorker i) = true) as Hw by (cbn; by rewrite Hi).
    destruct (handle_message h _ m Hw)
      as (h1 & [(es & Hes & Hquiet & Hps) _ Hs _ _ _] & ->).
    assert (pendingLogicCores h1 = pendingLogicCores h) as Hsame.
    { destruct Hps as [?|(j & [= <-] & _ & -> & _)]; [done|].
      by apply alter_resolve_fulfilled. }
    assert (resume_logic h1 = h1) as Hidle.
    { unfold resume_logic. destruct (at_stage h1) eqn:Hs1; try done.
      rewrite Hsame, Hsusp; [done|congruence]. }
    unfold resume. rewrite Hidle.
    destruct (resume_render_effects h1) as (es' & -> & Hrender).
    rewrite Hes, !List.filter_app.
    rewrite (filter_none _ es), (filter_none _ es'), !app_nil_r; [done| |].
    + eapply Forall_impl; [exact Hrender|]. intros e He.
      by apply not_start_to, running_not_start.
    + eapply Forall_impl; [exact Hquiet|]. intros e He.
      by apply not_start_to, quiet_not_start.
Qed.

Lemma C5_hello_then_one_start_witness :
  let h := run (main three_of_four)
               [message_from (LogicWorker 0) ready; message_from (LogicWorker 2) ready;
                message_from (LogicWorker 2) ready; message_from (LogicWorker 1) ready;
                message_from (LogicWorker 2) ready] in
  hello 2 ∈ effects h /\
  (exists coreNumber before after,
     logicCores h !! coreNumber = Some 2%nat /\
     effects h =
       before
       ++ [postMessage (LogicWorker 2) "start"
             [VNumber (JS.of_nat coreNumber);
              VNumber (JS.of_nat (length (logicCores h))); VWorld]]
       ++ after /\
     hello 2 ∈ before /\
     Forall (fun e => is_start_to 2 e = false) before /\
     Forall (fun e => is_start_to 2 e = false) after) /\
  List.filter (is_start_to 2)
              (effects (handle_event h (message_from (LogicWorker 2) ready)))
    = List.filter (is_start_to 2) (effects h) /\
  Forall (fun e => is_start_to 0 e = false)
         (effects (run (main two_cores) [message_from (LogicWorker 0) ready])).
Proof.
  cbv zeta.
  destruct (C5_hello_then_one_start three_of_four
              [message_from (LogicWorker 0) ready; message_from (LogicWorker 2) ready;
               message_from (LogicWorker 2) ready; message_from (LogicWorker 1) ready;
               message_from (LogicWorker 2) ready] 2%nat)
    as (Hhello & _ & Hsettled & Hduplicate); [vm_compute; reflexivity|].
  destruct (C5_hello_then_one_start two_cores [message_from (LogicWorker 0) ready] 0%nat)
    as (_ & Hpending & _); [vm_compute; reflexivity|].
  split_and!; [exact Hhello| |apply Hduplicate|].
  - apply Hsettled. none_pending.
  - apply Hpending. vm_compute. apply elem_of_cons. right. apply elem_of_cons. by left.
Defined.




(** * Further properties of the host *)

(** ** The code on the failure pages *)

(** X1: the two characters printed after [Guru Meditation 0x] are a [0]
    and one digit between 0 and 7, and they determine the three platform
    flags: bit 2 of the digit is [Atomics.waitAsync], bit 1 is
    [crossOriginIsolated], bit 0 is [isSecureContext], and two platforms with
    the same code have the same flags. *)
Theorem guru_meditation_identifies_platform p :
  0 <= Guru.flags p < 8 /\
  Guru.meditation p
    = String (Ascii.ascii_of_N 48)
        (String (Ascii.ascii_of_N (48 + Z.to_N (Guru.flags p))) EmptyString) /\
  Z.testbit (Guru.flags p) 2 = Guru.waitAsync p /\
  Z.testbit (Guru.flags p) 1 = Guru.crossOriginIsolated p /\
  Z.testbit (Guru.flags p) 0 = Guru.isSecureContext p /\
  (forall q, Guru.meditation q = Guru.meditation p -> q = p).
Proof.
  destruct p as [[] [] []];
    (split_and!; [vm_compute; intuition congruence|reflexivity..|]);
    intros [[] [] []]; vm_compute; congruence.
Qed.

(** ** The creation of the pool *)

Lemma Array_length_integer q len :
  JS.Array_length (Finite q) = Some len <->
  (q == inject_Z (Z.of_nat len))%Q /\ Z.of_nat len < 2 ^ 32.
Proof.
  unfold JS.Array_length.
  pose proof (ToUint32_range (Finite q)) as Hrange. split.
  - destruct (Qeq_bool _ _) eqn:E; [|done]. intros [= <-].
    change (JS.truncate q mod 2 ^ 32) with (JS.ToUint32 (Finite q)).
    apply Qeq_bool_iff in E. rewrite Z2Nat.id by lia. split; [by symmetry|lia].
  - intros [Hq Hlen].
    assert (JS.truncate q = Z.of_nat len) as Htrunc.
    { unfold JS.truncate. unfold Qeq in Hq. cbn in Hq. rewrite Z.mul_1_r in Hq.
      rewrite Hq. apply Z.quot_mul. done. }
    assert (JS.ToUint32 (Finite q) = Z.of_nat len) as Hu.
    { cbn -[Z.pow]. rewrite Htrunc. apply Z.mod_small. lia. }
    rewrite Hu. rewrite (proj2 (Qeq_bool_iff _ _)) by by symmetry.
    by rewrite Nat2Z.id.
Qed.

(** [availableCores] is never [NaN] nor zero: it is the truthy override or
    an integer of at least 1. *)
Lemma availableCores_nonzero env : JS.nonzero (availableCores env).
Proof.
  apply ToBoolean_nonzero. unfold availableCores, JS.or.
  destruct (JS.ToBoolean (unary_plus _)) eqn:E; [done|].
  cbn. apply negb_true_iff, not_true_iff_false. rewrite Qeq_bool_iff.
  unfold Qeq. cbn. lia.
Qed.

Lemma Array_length_pool env len :
  JS.Array_length (availableCores env) = Some len <-> pool_of (availableCores env) len.
Proof.
  pose proof (availableCores_nonzero env) as Hnz. split.
  - intros Hlen. destruct (availableCores env) as [| |q] eqn:E; try done.
    apply Array_length_integer in Hlen as [Hq Hsmall].
    exists q. split_and!; [done..| |done].
    destruct len; [|lia]. by destruct Hnz.
  - intros (q & -> & Hq & _ & Hsmall). by apply Array_length_integer.
Qed.

Lemma handle_event_promises h e :
  length (pendingLogicCores (handle_event h e)) = length (pendingLogicCores h) /\
  forall i,
    pendingLogicCores (handle_event h e) !! i = pendingLogicCores h !! i \/
    (pendingLogicCores h !! i = Some Pending /\
     pendingLogicCores (handle_event h e) !! i = Some Fulfilled).
Proof.
  destruct e as [w m| |v]; [|cbn|by split; [|left]].
  - destruct (exists_worker h w) eqn:Hw; [|by cbn; rewrite Hw; split; [|left]].
    destruct (handle_message h w m Hw) as (h1 & [(es & _ & _ & Hps) _ _ _ _ _] & ->).
    rewrite resume_promises.
    destruct Hps as [->|(j & _ & _ & -> & _)]; [by split; [|left]|].
    split; [apply length_alter|]. intros i.
    destruct (decide (j = i)) as [->|Hne]; [|left; by apply list_lookup_alter_ne].
    rewrite list_lookup_alter_eq.
    destruct (pendingLogicCores h !! i) as [[]|]; cbn; auto.
  - destruct (frameLoop h); [|by split; [|left]].
    destruct (advanceTick_effects h) as (_ & _ & _ & _ & -> & _). by split; [|left].
Qed.

Lemma run_promises h trace :
  length (pendingLogicCores (run h trace)) = length (pendingLogicCores h) /\
  forall i,
    pendingLogicCores (run h trace) !! i = pendingLogicCores h !! i \/
    (pendingLogicCores h !! i = Some Pending /\
     pendingLogicCores (run h trace) !! i = Some Fulfilled).
Proof.
  induction trace as [|e trace [IHlen IH]] using rev_ind; [by split; [|left]|].
  rewrite run_snoc.
  destruct (handle_event_promises (run h trace) e) as [Hlen Hstep].
  split; [congruence|]. intros i.
  destruct (Hstep i) as [->|[Hwas ->]]; [apply IH|].
  destruct (IH i) as [<-|[? _]]; [|right; by split].
  right. by split.
Qed.

(** X2: [Array(availableCores)] succeeds exactly when [availableCores] is an
    integer between 1 and 2^32 - 1, and then exactly that many promises exist
    in every state the host reaches; otherwise the module body throws a
    RangeError at line 110, and then no worker is ever created, the tick loop
    is never registered, and all the host ever does is what it did before
    line 110: the warning of line 15 where [Atomics.waitAsync] is missing,
    and nothing where it exists.  Without an override the pool is created on
    every platform that reports fewer than 2^32 + 2 logical processors. *)
Theorem pool_is_created_iff_valid_length env :
  (forall len,
     JS.Array_length (availableCores env) = Some len <-> pool_of (availableCores env) len) /\
  (forall len trace,
     pool_of (availableCores env) len ->
     length (pendingLogicCores (run (main env) trace)) = len /\
     at_stage (run (main env) trace) <> Thrown JS.RangeError) /\
  ((forall len, ~ pool_of (availableCores env) len) <->
   at_stage (main env) = Thrown JS.RangeError) /\
  (forall trace,
     at_stage (main env) = Thrown JS.RangeError ->
     at_stage (run (main env) trace) = Thrown JS.RangeError /\
     pendingLogicCores (run (main env) trace) = [] /\
     pendingRenderCore (run (main env) trace) = None /\
     frameLoop (run (main env) trace) = false /\
     effects (run (main env) trace) = waitAsync_warning env) /\
  (coreOverride env = None -> concurrency env < 2 ^ 32 + 2 ->
   exists len, pool_of (availableCores env) len).
Proof.
  assert (forall len trace, JS.Array_length (availableCores env) = Some len ->
            at_stage (run (main env) trace) <> Thrown JS.RangeError) as Hnot.
  { intros len trace Hlen Hs.
    destruct (reachable_progress env trace) as [[Hnone| Hs' | Hs' | Hs'] _];
      try congruence.
    - by rewrite reachable_const, Hlen in Hnone.
    - rewrite Hs in Hs'. done. }
  split_and!.
  - apply Array_length_pool.
  - intros len trace Hpool%Array_length_pool. split; [|by eapply Hnot].
    rewrite (proj1 (run_promises _ _)), (main_promises _ _ Hpool).
    by rewrite length_fmap, length_seq.
  - split.
    + intros Hnone. unfold main. cbv zeta.
      destruct (JS.Array_length _) as [len|] eqn:E; [|done].
      by apply Array_length_pool, Hnone in E.
    + intros Hs len Hpool%Array_length_pool. by apply (Hnot len [] Hpool).
  - intros trace Hs.
    destruct (JS.Array_length (availableCores env)) as [len|] eqn:E;
      [by destruct (Hnot len [] eq_refl)|].
    by apply aborted_forever.
  - intros Hunset Hsmall.
    assert (availableCores env = JS.of_Z (Z.max 1 (concurrency env - reservedCores)))
      as Havail by (apply availableCores_default; by rewrite Hunset).
    exists (Z.to_nat (Z.max 1 (concurrency env - reservedCores))).
    rewrite Havail. eexists. split; [reflexivity|].
    unfold reservedCores in *. rewrite Z2Nat.id by lia. split_and!; [done|lia|lia].
Qed.

Lemma pool_is_created_iff_valid_length_witness :
  length (pendingLogicCores
            (run (main three_of_four) [message_from (LogicWorker 0) ready; animation_frame]))
    = 4%nat /\
  at_stage (main {| coreOverride := Some (Finite (5 # 2)); hardwareConcurrency := Some 8;
                    logicWorkerConstructs := fun _ => true;
                    renderWorkerConstructs := true;
                    Atomics_waitAsync := false |}) = Thrown JS.RangeError /\
  effects (run (main {| coreOverride := Some (Finite (5 # 2));
                        hardwareConcurrency := Some 8;
                        logicWorkerConstructs := fun _ => true;
                        renderWorkerConstructs := true;
                        Atomics_waitAsync := false |})
               [animation_frame; message_from (LogicWorker 0) ready])
    = [console warn
         [VString "Atomics.waitAsync not available; glitching may occur when resized."]] /\
  exists len, pool_of (availableCores one_core) len.
Proof.
  destruct (pool_is_created_iff_valid_length three_of_four) as (Hiff & Hlen & _).
  destruct (pool_is_created_iff_valid_length
              {| coreOverride := Some (Finite (5 # 2)); hardwareConcurrency := Some 8;
                 logicWorkerConstructs := fun _ => true;
                 renderWorkerConstructs := true;
                 Atomics_waitAsync := false |}) as (Hiff' & _ & Habort & Hever & _).
  destruct (pool_is_created_iff_valid_length one_core) as (_ & _ & _ & _ & Hdefault).
  assert (at_stage (main {| coreOverride := Some (Finite (5 # 2));
                            hardwareConcurrency := Some 8;
                            logicWorkerConstructs := fun _ => true;
                            renderWorkerConstructs := true;
                            Atomics_waitAsync := false |}) = Thrown JS.RangeError)
    as Hthrown.
  { apply Habort. intros len Hpool%Hiff'. vm_compute in Hpool. discriminate. }
  split_and!.
  - apply Hlen. apply Hiff. vm_compute. reflexivity.
  - exact Hthrown.
  - by destruct (Hever [animation_frame; message_from (LogicWorker 0) ready] Hthrown)
      as (_ & _ & _ & _ & ->).
  - apply Hdefault; [reflexivity|vm_compute; reflexivity].
Defined.

(** ** The promises of the logic workers *)

(** X3: a settled promise is settled for good.  In any run of the host,
    from any state, the number of promises stays the same, a fulfilled promise
    stays fulfilled and a rejected one stays rejected, whatever messages
    arrive (a second [resolve] does nothing). *)
Theorem settled_promises_never_change h trace i p :
  pendingLogicCores h !! i = Some p -> p <> Pending ->
  pendingLogicCores (run h trace) !! i = Some p /\
  length (pendingLogicCores (run h trace)) = length (pendingLogicCores h).
Proof.
  intros Hi Hp. destruct (run_promises h trace) as [Hlen Hstep].
  split; [|done]. destruct (Hstep i) as [->|[Hwas _]]; [done|congruence].
Qed.

Lemma settled_promises_never_change_witness :
  let h := run (main three_of_four) [message_from (LogicWorker 1) ready] in
  let more := [message_from (LogicWorker 1) ready; message_from (LogicWorker 3) ready;
               message_from (LogicWorker 1) bogus; animation_frame] in
  pendingLogicCores (run h more) !! 1%nat = Some Fulfilled /\
  pendingLogicCores (run h more) !! 3%nat = Some Rejected.
Proof.
  cbv zeta. split.
  - apply settled_promises_never_change; [vm_compute; reflexivity|discriminate].
  - apply settled_promises_never_change; [vm_compute; reflexivity|discriminate].
Defined.





(** ** From the promises to the pool *)

Lemma main_promise env len i :
  JS.Array_length (availableCores env) = Some len -> (i < len)%nat ->
  pendingLogicCores (main env) !! i = Some (pending_core env i).
Proof.
  intros Hlen Hi. by rewrite (main_promises _ _ Hlen), list_lookup_fmap, lookup_seq_lt.
Qed.

Lemma reachable_promises_length env len trace :
  JS.Array_length (availableCores env) = Some len ->
  length (pendingLogicCores (run (main env) trace)) = len.
Proof.
  intros Hlen. rewrite (proj1 (run_promises _ _)), (main_promises _ _ Hlen).
  by rewrite length_fmap, length_seq.
Qed.

(** A promise is rejected exactly when the constructor of its worker
    threw. *)
Lemma rejected_iff env len trace i :
  JS.Array_length (availableCores env) = Some len ->
  pendingLogicCores (run (main env) trace) !! i = Some Rejected <->
  (i < len)%nat /\ logicWorkerConstructs env i = false.
Proof.
  intros Hlen. pose proof (reachable_promises_length env len trace Hlen) as Hlength.
  destruct (run_promises (main env) trace) as [_ Hstep]. split.
  - intros Hi. assert (i < len)%nat as Hlt.
    { rewrite <- Hlength. by eapply lookup_lt_Some. }
    split; [done|]. destruct (Hstep i) as [Hsame|[_ ?]]; [|congruence].
    rewrite Hi, (main_promise _ _ _ Hlen Hlt) in Hsame. unfold pending_core in Hsame.
    by destruct (logicWorkerConstructs env i).
  - intros [Hlt Hctor]. destruct (Hstep i) as [->|[Hwas _]].
    + rewrite (main_promise _ _ _ Hlen Hlt). unfold pending_core. by rewrite Hctor.
    + rewrite (main_promise _ _ _ Hlen Hlt) in Hwas. unfold pending_core in Hwas.
      by rewrite Hctor in Hwas.
Qed.





(** X6: the failure screen of line 165 means that every [Worker] constructor
    threw, and the other way round: when [Array(availableCores)] succeeds, the
    module body throws [Failed to load any simulation cores.] if and only if
    no logic worker could be constructed, and it does so in its first run,
    before any event. *)
Theorem total_failure_iff_no_worker_constructed env len trace :
  JS.Array_length (availableCores env) = Some len ->
  ((forall i, (i < len)%nat -> logicWorkerConstructs env i = false) <->
   at_stage (run (main env) trace) = Thrown (JS.Error no_cores_message)) /\
  (at_stage (run (main env) trace) = Thrown (JS.Error no_cores_message) ->
   at_stage (main env) = Thrown (JS.Error no_cores_message)).
Proof.
  intros Hlen.
  assert (forall trace,
            (forall i, (i < len)%nat -> logicWorkerConstructs env i = false) <->
            at_stage (run (main env) trace) = Thrown (JS.Error no_cores_message)) as Hiff.
  { clear trace. intros trace.
    pose proof (reachable_promises_length env len trace Hlen) as Hlength.
    destruct (reachable_progress env trace) as [Hp Hsusp]. split.
    - intros Hnone.
      assert (forall i p, pendingLogicCores (run (main env) trace) !! i = Some p ->
                p = Rejected) as Hall.
      { intros i p Hi.
        assert (i < len)%nat as Hlt by (rewrite <- Hlength; by eapply lookup_lt_Some).
        rewrite (proj2 (rejected_iff env len trace i Hlen)) in Hi by auto. congruence. }
      destruct Hp as [Hthrows| Hs | | _ _ Hcores]; [| |done|].
      + by rewrite reachable_const, Hlen in Hthrows.
      + specialize (Hsusp Hs). apply forallb_unsettled in Hsusp.
        apply list_elem_of_lookup_1 in Hsusp as [i Hi]. by apply Hall in Hi.
      + destruct (logicCores (run (main env) trace)) as [|i l] eqn:E; [done|].
        assert (i ∈ logicCores (run (main env) trace)) as Hi by (rewrite E; by left).
        apply elem_of_logicCores, Hall in Hi. done.
    - intros Hs i Hlt.
      destruct Hp as [_ Hs'| Hs' | _ Hsettled Hcores | Hs']; try congruence.
      + assert (is_Some (pendingLogicCores (run (main env) trace) !! i)) as [p Hi]
          by (apply lookup_lt_is_Some; lia).
        destruct p.
        * destruct Hsettled. by eapply list_elem_of_lookup_2.
        * apply elem_of_logicCores in Hi. rewrite Hcores in Hi. by apply elem_of_nil in Hi.
        * by apply (rejected_iff env len trace i Hlen) in Hi as [_ ?].
      + rewrite Hs in Hs'. done. }
  split; [apply Hiff|]. intros Hs. apply (Hiff []). by apply (Hiff trace).
Qed.

Lemma total_failure_iff_no_worker_constructed_witness :
  at_stage (main {| coreOverride := None; hardwareConcurrency := Some 4;
                    logicWorkerConstructs := fun _ => false;
                    renderWorkerConstructs := true; Atomics_waitAsync := true |})
    = Thrown (JS.Error no_cores_message).
Proof.
  apply (total_failure_iff_no_worker_constructed
           {| coreOverride := None; hardwareConcurrency := Some 4;
              logicWorkerConstructs := fun _ => false;
              renderWorkerConstructs := true;
              Atomics_waitAsync := true |} 2 []); [reflexivity|done].
Defined.

Lemma fulfilled_from_length i ps :
  (length (fulfilled_from i ps) <= length ps)%nat /\
  (Pending ∉ ps -> length (fulfilled_from i ps) = length ps <-> Rejected ∉ ps).
Proof.
  revert i. induction ps as [|p ps IH]; intros i.
  - split; [done|]. intros _. split; [intros _; apply not_elem_of_nil|done].
  - destruct (IH (S i)) as [Hle Hiff]. destruct p; cbn.
    + split; [lia|]. intros []. by left.
    + split; [lia|]. intros [_ Hsettled]%not_elem_of_cons.
      rewrite not_elem_of_cons, <- (Hiff Hsettled). intuition (done || lia).
    + split; [lia|]. intros _. split; [lia|]. intros []. by left.
Qed.

(** X7: once no promise is pending, the number of workers that were started
    (the count carried by every [start]) is at most the number requested, and
    it equals the value that [advanceTick] swaps into [workersRunning]
    exactly when no [Worker] constructor threw. *)
Theorem reset_value_matches_pool_iff_all_constructed env len trace :
  JS.Array_length (availableCores env) = Some len -> Z.of_nat len < 2 ^ 31 ->
  let h := run (main env) trace in
  Pending ∉ pendingLogicCores h ->
  JS.ToInt32 (availableCores_const h) = Z.of_nat len /\
  (length (logicCores h) <= len)%nat /\
  (JS.ToInt32 (availableCores_const h) = Z.of_nat (length (logicCores h)) <->
   forall i, (i < len)%nat -> logicWorkerConstructs env i = true).
Proof.
  intros Hlen Hsmall. cbv zeta. intros Hsettled.
  pose proof (reachable_promises_length env len trace Hlen) as Hlength.
  destruct (fulfilled_from_length 0 (pendingLogicCores (run (main env) trace)))
    as [Hle Hiff].
  specialize (Hiff Hsettled). fold (logicCores (run (main env) trace)) in Hle, Hiff.
  rewrite Hlength in Hle, Hiff.
  rewrite reachable_const, (Array_length_ToInt32 _ _ Hlen Hsmall).
  split_and!; [done..|].
  rewrite Nat2Z.inj_iff. split.
  - intros Hsame i Hlt. destruct (logicWorkerConstructs env i) eqn:Hctor; [done|].
    destruct (proj1 Hiff (eq_sym Hsame)).
    eapply list_elem_of_lookup_2. by apply (rejected_iff env len trace i Hlen).
  - intros Hall. symmetry. apply Hiff. intros [i Hi]%list_elem_of_lookup_1.
    apply (rejected_iff env len trace i Hlen) in Hi as [Hlt Hctor].
    rewrite Hall in Hctor by done. done.
Qed.

Lemma reset_value_matches_pool_iff_all_constructed_witness :
  let h := run (main two_cores)
               [message_from (LogicWorker 1) ready; message_from (LogicWorker 0) ready] in
  JS.ToInt32 (availableCores_const h) = Z.of_nat (length (logicCores h)).
Proof.
  cbv zeta.
  destruct (reset_value_matches_pool_iff_all_constructed two_cores 2
              [message_from (LogicWorker 1) ready; message_from (LogicWorker 0) ready])
    as (_ & _ & Hiff); [reflexivity|vm_compute; reflexivity|none_pending|].
  by apply Hiff.
Defined.

(** ** The display side *)

Lemma filter_quiet_tail (f : effect -> bool) l es :
  Forall (fun e => f e = false) es -> List.filter f (l ++ es) = List.filter f l.
Proof. intros Hes. by rewrite List.filter_app, (filter_none _ _ Hes), app_nil_r. Qed.

Lemma quiet_not_for_display e : kind_of e = Quiet -> for_display e = false.
Proof. by destruct e as [[|] ? ?| | | | |]. Qed.

Lemma advanceTick_no_display h :
  exists es, effects (advanceTick h) = effects h ++ es /\
    Forall (fun e => for_display e = false) es /\
    pendingRenderCore (advanceTick h) = pendingRenderCore h /\
    at_stage (advanceTick h) = at_stage h.
Proof.
  destruct (decide (TypedArray.cells (workersRunning (world h)) 0 = 0)) as [E|E].
  - rewrite (advanceTick_swapped _ E). exists [notify_tick]. by repeat constructor.
  - rewrite (advanceTick_missed _ E). exists []. cbn. by rewrite app_nil_r.
Qed.

Lemma start_messages_no_display cores :
  Forall (fun e => for_display e = false) (start_messages cores).
Proof.
  eapply Forall_impl; [apply start_messages_kind|].
  intros [[|] t d| | | | |]; try done.
Qed.

Lemma display_effects_emit h es :
  Forall (fun e => for_display e = false) es ->
  display_effects (emit es h) = display_effects h.
Proof. intros Hes. unfold display_effects. cbn. by apply filter_quiet_tail. Qed.

Lemma listened_display env d w m h h1 :
  listened w m h h1 -> display_inv0 env d h -> display_inv0 env d h1.
Proof.
  intros [(es & Hes & Hquiet & _) _ Hs _ _ Hr] [Hc Hb Ht He Hd].
  assert (display_effects h1 = display_effects h) as Hsame.
  { unfold display_effects. rewrite Hes. apply filter_quiet_tail.
    eapply Forall_impl; [exact Hquiet|]. apply quiet_not_for_display. }
  split; rewrite ?Hs, ?Hsame; try done.
  - destruct Hr as [->| ->]; [done|]. by destruct (pendingRenderCore h) as [[]|].
  - intros Hbound. destruct Hr as [->| ->]; [auto|]. by rewrite (Hb Hbound).
  - intros Hthrown. destruct Hr as [->| ->]; [auto|]. by rewrite (Ht Hthrown).
Qed.

Lemma resume_logic_display env d h :
  display_inv0 env d h -> display_inv0 env d (resume_logic h).
Proof.
  intros Hinv. unfold resume_logic. destruct (at_stage h) eqn:Hs; try done.
  destruct (forallb _ _); [|done]. destruct Hinv as [Hc Hb Ht He Hd].
  assert (d = []) as -> by (apply Hd; by rewrite Hs).
  rewrite Hs in He. cbn in He. unfold after_logic_cores. case_bool_decide.
  - split; cbn; try done.
    + by destruct (pendingRenderCore h) as [[]|]; rewrite ?Hs in Hc.
    + unfold display_effects in *. cbn. rewrite <- !(assoc_L (++)).
      rewrite filter_quiet_tail; [done|].
      apply Forall_app. split; [apply start_messages_no_display|by repeat constructor].
  - match goal with |- context [advanceTick ?k] =>
      destruct (advanceTick_no_display k) as (es & Hes & Hquiet & Hr & Hs') end.
    cbn in Hes, Hr. split; cbn; rewrite ?Hr; try done.
    + by destruct (pendingRenderCore h) as [[]|]; rewrite ?Hs in Hc.
    + unfold display_effects in *. cbn. rewrite Hes, <- !(assoc_L (++)).
      rewrite filter_quiet_tail; [done|].
      apply Forall_app. split; [apply start_messages_no_display|].
      by apply Forall_cons.
Qed.

Lemma resume_render_display env d h :
  display_inv0 env d h -> display_inv env d (resume_render h).
Proof.
  intros Hinv. unfold resume_render. destruct (at_stage h) eqn:Hs;
    try (split; [done|by rewrite Hs]).
  destruct Hinv as [Hc Hb Ht He Hd]. rewrite Hs in He.
  specialize (Hd ltac:(by rewrite Hs)). subst d.
  unfold after_render_core. destruct (pendingRenderCore h) as [[]|] eqn:Hr.
  - split; [|by rewrite Hs, Hr]. split; rewrite ?Hs, ?Hr; done.
  - split; [|done]. split; cbn; rewrite ?Hr; try done.
    unfold display_effects in *. cbn. rewrite List.filter_app. cbn in He.
    by rewrite He.
  - split; [|done]. split; cbn; rewrite ?Hr; done.
  - by rewrite Hs in Hc.
Qed.

Lemma handle_event_display env d h e :
  display_inv env d h -> display_inv env d (handle_event h e).
Proof.
  intros [Hinv Hwait]. destruct e as [w m| |v].
  - destruct (exists_worker h w) eqn:Hw; [|by cbn; rewrite Hw].
    destruct (handle_message h w m Hw) as (h1 & Hl & ->).
    unfold resume. by eapply resume_render_display, resume_logic_display, listened_display.
  - cbn. destruct (frameLoop h); [|done].
    destruct (advanceTick_no_display h) as (es & Hes & Hquiet & Hr & Hs).
    destruct Hinv as [Hc Hb Ht He Hd].
    split; [split|]; rewrite ?Hr, ?Hs; try done.
    unfold display_effects in *. rewrite Hes. by rewrite filter_quiet_tail.
  - destruct Hinv as [Hc Hb Ht He Hd]. by split; [split|].
Qed.

Lemma main_display env : display_inv env [] (main env).
Proof.
  assert (List.filter for_display (waitAsync_warning env) = []) as Hwarned
    by (unfold waitAsync_warning; by destruct (Atomics_waitAsync env)).
  unfold main. cbv zeta. destruct (JS.Array_length _).
  - unfold resume. apply resume_render_display, resume_logic_display.
    split; cbn; try done. by destruct (renderWorkerConstructs env).
  - by split; [split|].
Qed.

Lemma reachable_display env trace : display_inv env [] (run (main env) trace).
Proof.
  induction trace as [|e trace IH] using rev_ind; [apply main_display|].
  rewrite run_snoc. by apply handle_event_display.
Qed.


(** In a state the host reaches, start-up has got past the failure check
    exactly when no promise is pending and some logic worker is ready. *)
Lemma past_failure_check_iff env trace :
  let h := run (main env) trace in
  past_failure_check (at_stage h) <->
  (Pending ∉ pendingLogicCores h) /\ logicCores h <> [].
Proof.
  cbv zeta. destruct (reachable_progress env trace)
    as [[_ Hs Hnone| Hs | Hs _ Hcores | Hs Hsettled Hcores Hloop] Hsusp].
  - rewrite Hs. unfold logicCores. rewrite Hnone. cbn. split; [done|]. by intros [_ ?].
  - rewrite Hs. split; [done|]. intros [Hsettled _].
    specialize (Hsusp Hs). by apply forallb_unsettled in Hsusp.
  - rewrite Hs, Hcores. cbn. split; [done|]. by intros [_ ?].
  - done.
Qed.



(** X9: the module body throws at line 191 exactly when some logic worker
    has been started and the render worker could not be constructed.  The
    tick barrier is running then all the same ([advanceTick] is registered
    and a frame that finds [workersRunning] at 0 advances the tick), while
    nothing has been sent to a render worker and the display is not bound. *)
Theorem render_failure_leaves_barrier_running env trace :
  let h := run (main env) trace in
  (at_stage h = Thrown JS.WorkerConstructionError <->
     (Pending ∉ pendingLogicCores h) /\ logicCores h <> [] /\
     renderWorkerConstructs env = false) /\
  (at_stage h = Thrown JS.WorkerConstructionError ->
     frameLoop h = true /\ display_effects h = [] /\
     (running_now h = 0 ->
        tick_now (handle_event h animation_frame)
          = TypedArray.wrap TypedArray.BigInt64 (tick_now h + 1))).
Proof.
  cbv zeta. destruct (reachable_display env trace) as [[Hc Hb Ht He _] Hw].
  pose proof (past_failure_check_iff env trace) as Hpast. cbv zeta in Hpast.
  assert (at_stage (run (main env) trace) = Thrown JS.WorkerConstructionError ->
          frameLoop (run (main env) trace) = true) as Hloop.
  { intros Hs. destruct (reachable_progress env trace) as [[| | |] _]; congruence. }
  split.
  - split.
    + intros Hs. rewrite Hs in Hpast. destruct (proj1 Hpast eq_refl).
      split_and!; [done..|]. by rewrite (Ht Hs) in Hc.
    + intros (Hsettled & Hcores & Hctor).
      apply proj2 in Hpast. specialize (Hpast (conj Hsettled Hcores)).
      destruct (at_stage (run (main env) trace)) as [| | |e] eqn:Hs; try done.
      * rewrite (Hw eq_refl) in Hc. congruence.
      * rewrite (Hb eq_refl) in Hc. congruence.
      * cbn in Hpast. by subst e.
  - intros Hs. rewrite Hs, app_nil_r in He. split_and!; [by apply Hloop|done|].
    intros Hzero. cbn. rewrite (Hloop Hs).
    destruct (advanceTick_spec (run (main env) trace))
      as (_ & _ & _ & _ & _ & _ & [(_ & _ & Htick & _)|[? _]]); try done.
    apply run_typed, main_typed.
Qed.

Lemma render_failure_leaves_barrier_running_witness :
  let env := {| coreOverride := None; hardwareConcurrency := Some 3;
                logicWorkerConstructs := fun _ => true;
                renderWorkerConstructs := false; Atomics_waitAsync := true |} in
  let h := run (main env) [message_from (LogicWorker 0) ready; workers_store 0] in
  at_stage h = Thrown JS.WorkerConstructionError /\
  frameLoop h = true /\
  tick_now (handle_event h animation_frame) = 2.
Proof.
  cbv zeta.
  destruct (render_failure_leaves_barrier_running
              {| coreOverride := None; hardwareConcurrency := Some 3;
                 logicWorkerConstructs := fun _ => true;
                 renderWorkerConstructs := false; Atomics_waitAsync := true |}
              [message_from (LogicWorker 0) ready; workers_store 0]) as [Hiff Hruns].
  assert (at_stage (run (main
            {| coreOverride := None; hardwareConcurrency := Some 3;
               logicWorkerConstructs := fun _ => true;
               renderWorkerConstructs := false; Atomics_waitAsync := true |})
            [message_from (LogicWorker 0) ready; workers_store 0])
          = Thrown JS.WorkerConstructionError) as Hs.
  { apply Hiff. split_and!; [none_pending|vm_compute; discriminate|reflexivity]. }
  destruct (Hruns Hs) as (Hloop & _ & Htick).
  split_and!; [exact Hs|exact Hloop|].
  rewrite Htick by (vm_compute; reflexivity). vm_compute. reflexivity.
Defined.

(** ** The drawing callbacks *)

Lemma run_ui_display env d h trace :
  display_inv env d h ->
  display_inv env (d ++ draws_of h trace) (run_ui h trace).
Proof.
  revert d h. induction trace as [|e trace IH]; intros d h Hinv.
  - cbn. by rewrite app_nil_r.
  - change (run_ui h (e :: trace)) with (run_ui (handle_ui_event h e) trace).
    cbn [draws_of]. rewrite (assoc_L (++)). apply IH.
    destruct e as [e|p args].
    + cbn. rewrite app_nil_r. by apply handle_event_display.
    + cbn. destruct (at_stage h) eqn:Hs; rewrite ?app_nil_r; try done.
      destruct Hinv as [[Hc Hb Ht He Hd] Hw].
      split; [split|]; cbn; try done.
      unfold display_effects in *. cbn. by rewrite List.filter_app, He, Hs.
Qed.

(** X12: with the display layer attached, what has reached the display
    side is empty until the module body is bound, and from then on it is
    [hello], [bindToData], the call of [bindWorldToDisplay], and then one
    message for each drawing call made since, in the order of the calls, with
    the kind of its primitive and the arguments as they were passed.  The five
    kinds are distinct. *)
Theorem drawing_calls_are_forwarded_in_order env trace :
  let h := run_ui (main env) trace in
  display_effects h
    = match at_stage h with Bound => binding | _ => [] end ++ draws_of (main env) trace /\
  (at_stage h <> Bound -> draws_of (main env) trace = []) /\
  (forall p q, Draw.message_type p = Draw.message_type q -> p = q).
Proof.
  cbv zeta.
  destruct (run_ui_display env [] (main env) trace (main_display env))
    as [[_ _ _ He Hd] _].
  split_and!; [done|done|]. by intros [] [].
Qed.

Lemma drawing_calls_are_forwarded_in_order_witness :
  display_effects
    (run_ui (main one_core)
       [draw_call Draw.dot [VNumber (JS.of_Z 9)];
        from_loop (message_from (LogicWorker 0) ready);
        from_loop (message_from RenderWorker ready);
        draw_call Draw.line [VNumber (JS.of_Z 1); VNumber (JS.of_Z 2)];
        from_loop animation_frame;
        draw_call Draw.fill []])
  = binding ++ [ postMessage RenderWorker "drawLine" [VNumber (JS.of_Z 1); VNumber (JS.of_Z 2)];
                 postMessage RenderWorker "drawFill" [] ] /\
  draws_of (main one_core) [draw_call Draw.rect []; from_loop animation_frame] = [].
Proof.
  split.
  - destruct (drawing_calls_are_forwarded_in_order one_core
       [draw_call Draw.dot [VNumber (JS.of_Z 9)];
        from_loop (message_from (LogicWorker 0) ready);
        from_loop (message_from RenderWorker ready);
        draw_call Draw.line [VNumber (JS.of_Z 1); VNumber (JS.of_Z 2)];
        from_loop animation_frame;
        draw_call Draw.fill []]) as (-> & _). vm_compute. reflexivity.
  - destruct (drawing_calls_are_forwarded_in_order one_core
       [draw_call Draw.rect []; from_loop animation_frame]) as (_ & Hnone & _).
    apply Hnone. vm_compute. discriminate.
Defined.

(** ** Messages that only log *)

Lemma emit_nil h : emit [] h = h.
Proof. destruct h. unfold emit. cbn. by rewrite app_nil_r. Qed.

Lemma emit_emit es es' h : emit es' (emit es h) = emit (es ++ es') h.
Proof. unfold emit. cbn. by rewrite (assoc_L (++)). Qed.

(** A module body that has gone as far as it can stays where it is when
    only the console is written. *)
Lemma resume_idle h es :
  suspended h ->
  (at_stage h = AwaitingRenderCore -> pendingRenderCore h = Some Pending) ->
  resume (emit es h) = emit es h.
Proof.
  intros Hsusp Hw. unfold resume, resume_logic.
  change (at_stage (emit es h)) with (at_stage h).
  change (pendingLogicCores (emit es h)) with (pendingLogicCores h).
  unfold resume_render, after_render_core.
  destruct (at_stage h) eqn:Hs.
  - rewrite (Hsusp Hs). cbn. by rewrite Hs.
  - cbn. by rewrite Hs, (Hw eq_refl).
  - cbn. by rewrite Hs.
  - cbn. by rewrite Hs.
Qed.

(** The only callbacks that are not [pong] are stored under [ready] in the
    [ok] tables. *)
Lemma own_callback_not_ready w (error_given : bool) key cb :
  get_property (if error_given then err (callbacks_of w) else ok (callbacks_of w)) key
    = Own cb ->
  error_given = true \/ key <> "ready" ->
  cb = pong.
Proof.
  unfold get_property.
  destruct (_ !! key) as [cb'|] eqn:E; [|by case_bool_decide].
  intros [= <-] Hkey. destruct error_given; [by destruct w|].
  destruct Hkey as [|Hkey]; [done|].
  destruct w as [i|]; cbn in E.
  - apply lookup_insert_Some in E as [[<- _]|[_ E]]; [done|].
    apply lookup_insert_Some in E as [[_ <-]|[_ E]]; [done|].
    by apply lookup_insert_Some in E as [[_ <-]|[_ E]].
  - apply lookup_insert_Some in E as [[<- _]|[_ E]]; [done|].
    apply lookup_insert_Some in E as [[_ <-]|[_ E]]; [done|].
    by apply lookup_insert_Some in E as [[_ <-]|[_ E]].
Qed.

(** A key of [Object.prototype] is no own property of any callback table. *)
Lemma inherited_property w (error_given : bool) key :
  key ∈ Object_prototype ->
  get_property (if error_given then err (callbacks_of w) else ok (callbacks_of w)) key
    = Inherited.
Proof.
  intros Hkey. unfold get_property. rewrite (bool_decide_eq_true_2 _ Hkey).
  assert ((if error_given then err (callbacks_of w) else ok (callbacks_of w)) !! key = None)
    as ->; [|done].
  unfold Object_prototype in Hkey.
  repeat (apply elem_of_cons in Hkey as [->|Hkey]);
    [destruct error_given, w; vm_compute; reflexivity..|].
  by apply elem_of_nil in Hkey.
Qed.

(** X11: in any state the host reaches, a message from any worker that is
    not a [ready] without an error (another kind, or any kind with an error
    attached) changes nothing but the log: no promise is resolved, nothing is
    sent to a worker, the world and the stage of the module body stay as they
    are, and what is added are console entries and at most the report of the
    exception that left the listener.  A message whose kind names a member of
    [Object.prototype] ([valueOf], [__proto__], ...) and that is not malformed
    finds that member in the callback table and calls it: nothing is written
    to the console, and for every member but [constructor], [toString] and
    [isPrototypeOf] the call throws a TypeError out of the listener. *)
Theorem other_messages_only_log env trace w m :
  let h := run (main env) trace in
  let h' := handle_event h (message_from w m) in
  (type m <> "ready" \/ defined (error m) = true ->
   exists es, h' = emit es h /\ Forall is_log es) /\
  (exists_worker h w = true ->
   defined (error m) && bool_decide (is_Some (data m)) = false ->
   type m ∈ Object_prototype ->
   h' = report (call_inherited (type m) (default [error m] (data m))) h /\
   (type m ∉ ["constructor"; "toString"; "isPrototypeOf"] ->
    h' = emit [uncaught JS.TypeError] h)).
Proof.
  cbv zeta.
  destruct (reachable_progress env trace) as [_ Hsusp].
  destruct (reachable_display env trace) as [_ Hw].
  generalize dependent (run (main env) trace). intros h Hsusp Hw.
  assert (forall c, resume (report c h) = report c h) as Hidle.
  { intros [|e]; cbn [report]; [|by apply resume_idle].
    by rewrite <- (emit_nil h) at 1; rewrite resume_idle, emit_nil. }
  split.
  - intros Hm.
    cbn [handle_event]. destruct (exists_worker h w); [|exists []; by rewrite emit_nil].
    unfold listener. destruct (defined (error m) && bool_decide _).
    { cbn [report]. eexists. rewrite resume_idle by done.
      split; [done|]. by repeat constructor. }
    destruct (get_property _ _) as [cb| |] eqn:E.
    + assert (get_property (if defined (error m) then err (callbacks_of w)
                            else ok (callbacks_of w)) (type m) = Own cb) as E'
        by by destruct (defined _).
      apply own_callback_not_ready in E' as ->; [|by destruct Hm; [right|left]].
      unfold invoke. cbn [report]. eexists. rewrite resume_idle by done.
      split; [done|]. by repeat constructor.
    + rewrite Hidle. destruct (call_inherited _ _) as [|e]; cbn [report].
      * exists []. by rewrite emit_nil.
      * eexists. split; [done|]. by repeat constructor.
    + destruct (defined (error m)); cbn [report]; rewrite ?emit_emit;
        eexists; rewrite resume_idle by done; (split; [done|]); by repeat constructor.
  - intros Hexists Hwell Hkey.
    assert (handle_event h (message_from w m)
            = report (call_inherited (type m) (default [error m] (data m))) h) as ->.
    { cbn [handle_event]. rewrite Hexists. unfold listener. rewrite Hwell.
      replace (get_property _ _) with Inherited; [apply Hidle|].
      symmetry. destruct (defined (error m)); [apply (inherited_property w true)
                                               |apply (inherited_property w false)]; done. }
    split; [done|]. intros Hthrows.
    assert (call_inherited (type m) (default [error m] (data m)) = Throw JS.TypeError) as ->;
      [|done].
    unfold call_inherited. rewrite bool_decide_eq_false_2.
    + destruct (String.eqb_spec (type m) "isPrototypeOf") as [E|_]; [|done].
      exfalso. apply Hthrows. rewrite E.
      apply (bool_decide_unpack _). vm_compute. exact I.
    + intros Hret. apply Hthrows. rewrite !elem_of_cons in Hret |- *.
      destruct Hret as [?|[?|Hnil]]; [by left|by right; left|by apply elem_of_nil in Hnil].
Qed.

Lemma other_messages_only_log_witness :
  let h := run (main one_core) [message_from (LogicWorker 0) ready] in
  (exists es, handle_event h (message_from RenderWorker bogus) = emit es h /\
              Forall is_log es) /\
  handle_event h (message_from (LogicWorker 0)
                    {| type := "__proto__"; data := Some []; error := VUndefined |})
    = emit [uncaught JS.TypeError] h /\
  handle_event h (message_from RenderWorker
                    {| type := "valueOf"; data := None; error := VString "lost" |})
    = emit [uncaught JS.TypeError] h.
Proof.
  cbv zeta. split_and!.
  - apply (other_messages_only_log one_core [message_from (LogicWorker 0) ready]
             RenderWorker bogus).
    left. vm_compute. discriminate.
  - apply (other_messages_only_log one_core [message_from (LogicWorker 0) ready]
             (LogicWorker 0)
             {| type := "__proto__"; data := Some []; error := VUndefined |});
      [vm_compute; reflexivity|reflexivity|..];
      apply (bool_decide_unpack _); vm_compute; exact I.
  - apply (other_messages_only_log one_core [message_from (LogicWorker 0) ready]
             RenderWorker
             {| type := "valueOf"; data := None; error := VString "lost" |});
      [vm_compute; reflexivity|reflexivity|..];
      apply (bool_decide_unpack _); vm_compute; exact I.
Defined.

(** ** The barrier between two stores of the workers *)

Lemma ToInt32_pool env len :
  JS.Array_length (availableCores env) = Some len ->
  JS.ToInt32 (availableCores env) <> 0.
Proof.
  intros Hlen. pose proof Hlen as Hpool.
  apply Array_length_pool in Hpool as (q & _ & _ & Hpos & Hsmall).
  unfold JS.ToInt32. rewrite (Array_length_ToUint32 _ _ Hlen). unfold JS.signed.
  rewrite Z.mod_small by lia.
  destruct (Z.ltb_spec (Z.of_nat len) (2 ^ (32 - 1))); lia.
Qed.

Lemma advanceTick_frameLoop h : frameLoop (advanceTick h) = true.
Proof.
  destruct (decide (TypedArray.cells (workersRunning (world h)) 0 = 0)) as [E|E].
  - by rewrite (advanceTick_swapped _ E).
  - by rewrite (advanceTick_missed _ E).
Qed.

(** Resuming the module body leaves the world alone, or it is the call of
    [advanceTick] at line 178 that changes it. *)
Lemma resume_world h :
  (world (resume h) = world h /\ frameLoop (resume h) = frameLoop h) \/
  (pendingLogicCores h <> [] /\
   exists k, world k = world h /\ availableCores_const k = availableCores_const h /\
             world (resume h) = world (advanceTick k) /\ frameLoop (resume h) = true).
Proof.
  assert (forall k, world (resume_render k) = world k /\
                    frameLoop (resume_render k) = frameLoop k) as Hrender.
  { intros k. unfold resume_render, after_render_core.
    destruct (at_stage k); try done. by destruct (pendingRenderCore k) as [[]|]. }
  unfold resume. destruct (Hrender (resume_logic h)) as [-> ->].
  unfold resume_logic. destruct (at_stage h); try by left.
  destruct (forallb _ _); [|by left].
  unfold after_logic_cores. case_bool_decide as Hcores; [by left|]. right.
  split.
  { intros Hnil. apply Hcores. unfold logicCores. by rewrite Hnil. }
  eexists. split_and!; [| |reflexivity|apply advanceTick_frameLoop]; done.
Qed.

Lemma handle_event_world h e :
  host_only e ->
  (world (handle_event h e) = world h /\
   frameLoop (handle_event h e) = frameLoop h) \/
  ((pendingLogicCores h <> [] \/ frameLoop h = true) /\
   exists k, world k = world h /\ availableCores_const k = availableCores_const h /\
             world (handle_event h e) = world (advanceTick k) /\
             frameLoop (handle_event h e) = true).
Proof.
  destruct e as [w m| |v]; [| |done]; intros _.
  - destruct (exists_worker h w) eqn:Hw; [|cbn; rewrite Hw; by left].
    destruct (handle_message h w m Hw) as (h1 & [(es & _ & _ & Hps) Hworld _ Hloop Hc _] & ->).
    destruct (resume_world h1) as [[-> ->]|(Hsome & k & Hk & Hkc & -> & ->)]; [by left|].
    right. split; [left|exists k; split_and!; congruence].
    intros Hnil. apply Hsome.
    destruct Hps as [->|(i & _ & _ & -> & _)]; [done|]. by rewrite Hnil.
  - cbn. destruct (frameLoop h) eqn:Hloop; [|by left].
    right. split; [by right|]. exists h. split_and!; [done..|apply advanceTick_frameLoop].
Qed.

Lemma run_blocked h more :
  Forall host_only more -> running_now h <> 0 -> world (run h more) = world h.
Proof.
  revert h. induction more as [|e more IH]; intros h Hall Hrun; [done|].
  change (run h (e :: more)) with (run (handle_event h e) more).
  apply Forall_cons in Hall as [He Hall].
  assert (world (handle_event h e) = world h) as Hw.
  { destruct (handle_event_world h e He) as [[? _]|(_ & k & Hk & _ & -> & _)]; [done|].
    rewrite advanceTick_missed; [done|]. unfold running_now in Hrun. by rewrite Hk. }
  rewrite IH; [done..|]. unfold running_now. by rewrite Hw.
Qed.

(** X10: the host cannot advance the tick twice in a row.  Whenever a step
    of the host changes the tick, [workersRunning] was 0 before it and is the
    reset value afterwards, which is never 0; and from a state in which
    [workersRunning] is not 0 no sequence of frames and messages changes the
    world at all: every frame is missed until another thread stores 0. *)
Theorem frames_are_missed_until_workers_finish env trace :
  let h := run (main env) trace in
  (forall more, Forall host_only more -> running_now h <> 0 ->
     world (run h more) = world h) /\
  (forall e, tick_now (handle_event h e) <> tick_now h ->
     running_now h = 0 /\
     running_now (handle_event h e) = JS.ToInt32 (availableCores env) /\
     running_now (handle_event h e) <> 0).
Proof.
  cbv zeta. split; [intros more; apply run_blocked|].
  intros e Htick.
  destruct (JS.Array_length (availableCores env)) as [len|] eqn:Hlen.
  - destruct (handle_event_step (run (main env) trace) e) as (_ & _ & [?|(H0 & Hr & _)]);
      [apply run_typed, main_typed|done|].
    rewrite reachable_const in Hr. split_and!; [done..|].
    rewrite Hr. by apply (ToInt32_pool env len).
  - destruct (aborted_forever env trace Hlen) as (_ & Hps & Hr & Hloop & _).
    exfalso. apply Htick.
    destruct e as [[i|] m| |v]; cbn; rewrite ?Hps, ?Hr, ?Hloop; done.
Qed.

Lemma frames_are_missed_until_workers_finish_witness :
  let h := run (main one_core) [message_from (LogicWorker 0) ready] in
  world (run h [animation_frame; message_from RenderWorker ready; animation_frame])
    = world h /\
  running_now (handle_event (main one_core) (message_from (LogicWorker 0) ready)) = 1.
Proof.
  cbv zeta.
  destruct (frames_are_missed_until_workers_finish one_core
              [message_from (LogicWorker 0) ready]) as [Hblocked _].
  destruct (frames_are_missed_until_workers_finish one_core []) as [_ Hchanged].
  split.
  - apply Hblocked; [by repeat constructor|]. vm_compute. discriminate.
  - destruct (Hchanged (message_from (LogicWorker 0) ready)) as (_ & -> & _).
    + vm_compute. discriminate.
    + vm_compute. reflexivity.
Defined.

(** X13: as long as no other thread has stored to [workersRunning], the
    host has advanced the tick exactly once if the tick loop is registered and
    not at all otherwise: before the call of [advanceTick] at line 178 the
    tick and [workersRunning] are both 0; that call finds the 0 the array was
    allocated with, so it always succeeds and leaves the tick at 1 and
    [workersRunning] at the reset value, where they stay through any number of
    frames. *)
Theorem host_alone_advances_tick_once env trace :
  Forall host_only trace ->
  let h := run (main env) trace in
  (frameLoop h = false -> tick_now h = 0 /\ running_now h = 0) /\
  (frameLoop h = true ->
     tick_now h = 1 /\ running_now h = JS.ToInt32 (availableCores env) /\
     running_now h <> 0).
Proof.
  cbv zeta. induction trace as [|e trace IH] using rev_ind; intros Hall.
  - assert (frameLoop (main env) = false /\ world (main env) = world_init) as [Hloop Hw].
    { split; [|apply main_world].
      destruct (main_progress env) as [[| | |? Hsettled Hcores _] Hsusp]; try done.
      exfalso. apply Hcores. unfold logicCores.
      destruct (JS.Array_length (availableCores env)) as [len|] eqn:Hlen.
      - rewrite (main_promises _ _ Hlen). apply fulfilled_from_fresh.
      - unfold main. cbv zeta. by rewrite Hlen. }
    cbn. unfold tick_now, running_now. rewrite Hloop, Hw. by split.
  - apply Forall_app in Hall as [Hall He]. rewrite Forall_singleton in He.
    specialize (IH Hall). rewrite run_snoc.
    set (h := run (main env) trace) in *.
    assert (typed (world h)) as Htyped by apply run_typed, main_typed.
    assert (availableCores_const h = availableCores env) as Hconst by apply reachable_const.
    assert (pendingLogicCores h <> [] -> JS.ToInt32 (availableCores env) <> 0) as Hnz.
    { intros Hsome. destruct (JS.Array_length (availableCores env)) as [len|] eqn:Hlen.
      - by apply (ToInt32_pool env len).
      - by destruct (aborted_forever env trace Hlen) as (_ & Hps & _). }
    clearbody h.
    destruct (handle_event_world h e He)
      as [[Hw Hloop]|(Hwhy & k & Hk & Hkc & Hw & Hloop)];
      unfold tick_now, running_now in *; rewrite Hw, Hloop.
    { done. }
    split; [done|]. intros _.
    destruct (frameLoop h) eqn:Hwas.
    + destruct IH as [_ IH]. destruct (IH eq_refl) as (Ht & Hr & Hr0).
      rewrite advanceTick_missed by (by rewrite Hk).
      change (world (set_frameLoop true k)) with (world k). by rewrite Hk.
    + destruct IH as [IH _]. destruct (IH eq_refl) as (Ht & Hr).
      destruct Hwhy as [Hsome|?]; [|done].
      destruct (advanceTick_spec k) as (_ & _ & _ & _ & _ & _ & [(_ & Hr' & Ht' & _)|[Hr' _]]).
      * by rewrite Hk.
      * unfold tick_now, running_now in *. rewrite Hr', Ht', Hk, Ht, Hkc, Hconst.
        split_and!; [done..|]. by apply Hnz.
      * unfold running_now in Hr'. by rewrite Hk in Hr'.
Qed.

Lemma host_alone_advances_tick_once_witness :
  let h := run (main two_cores)
               [message_from (LogicWorker 1) ready; animation_frame;
                message_from (LogicWorker 0) ready; animation_frame; animation_frame] in
  tick_now h = 1 /\ running_now h = 2.
Proof.
  cbv zeta.
  destruct (host_alone_advances_tick_once two_cores
              [message_from (LogicWorker 1) ready; animation_frame;
               message_from (LogicWorker 0) ready; animation_frame; animation_frame])
    as [_ Hstarted]; [by repeat constructor|].
  destruct Hstarted as (Ht & Hr & _); [vm_compute; reflexivity|].
  split; [exact Ht|]. rewrite Hr. vm_compute. reflexivity.
Defined.

(** ** What the host leaves alone *)

(** X14: the host never takes the lock of the world, never sets its bounds
    and never touches a per-particle array.  In every state it reaches the
    global lock is 0 (the simulation is not paused), the bounds are 0 by 0,
    and the per-particle arrays are as allocated: one cell for each of the
    3840 x 2160 = 8294400 pixels, every particle unlocked. *)
Theorem host_never_locks_or_resizes env trace :
  let w := world (run (main env) trace) in
  TypedArray.get (lock w) 0 = Some 0 /\
  TypedArray.get (bounds_x w) 0 = Some 0 /\
  TypedArray.get (bounds_y w) 0 = Some 0 /\
  particles w = particles world_alloc /\
  totalPixels = 8294400%N /\
  (forall cell, (cell < totalPixels)%N ->
     TypedArray.get (particles_lock (particles w)) cell = Some 0 /\
     TypedArray.get (particles_tick (particles w)) cell = Some 0 /\
     TypedArray.get (particles_abgr (particles w)) cell = Some 0).
Proof.
  cbv zeta. destruct (reachable_frame env trace) as [-> -> -> _ -> _ _ _ _].
  split_and!; try done.
  intros cell Hcell. unfold TypedArray.get. cbn.
  apply N.ltb_lt in Hcell. by rewrite Hcell.
Qed.

Lemma host_never_locks_or_resizes_witness :
  let w := world (run (main one_core)
                      [message_from (LogicWorker 0) ready; workers_store 0;
                       animation_frame]) in
  TypedArray.get (particles_lock (particles w)) 8294399 = Some 0 /\
  TypedArray.get (particles_lock (particles w)) 8294400 = None.
Proof.
  cbv zeta.
  destruct (host_never_locks_or_resizes one_core
              [message_from (LogicWorker 0) ready; workers_store 0; animation_frame])
    as (_ & _ & _ & Hparticles & _ & Hcells).
  split.
  - apply Hcells. vm_compute. reflexivity.
  - rewrite Hparticles. vm_compute. reflexivity.
Defined.

(** ** Acknowledgments *)







(** ** The warning *)

Lemma start_not_warning e : kind_of e = Start -> is_warning e = false.
Proof. by destruct e as [[j|] t d|[]| | | |]. Qed.

Lemma resume_no_warning h :
  exists es, effects (resume h) = effects h ++ es /\
             Forall (fun e => is_warning e = false) es.
Proof.
  assert (forall k, exists es, effects (resume_render k) = effects k ++ es /\
                      Forall (fun e => is_warning e = false) es) as Hrender.
  { intros k. unfold resume_render, after_render_core.
    destruct (at_stage k); try (exists []; by rewrite app_nil_r).
    destruct (pendingRenderCore k) as [[]|]; try (exists []; by rewrite app_nil_r).
    eexists. split; [done|]. by repeat constructor. }
  unfold resume. destruct (Hrender (resume_logic h)) as (es' & -> & Hes').
  assert (exists es, effects (resume_logic h) = effects h ++ es /\
                     Forall (fun e => is_warning e = false) es) as (es & -> & Hes).
  { unfold resume_logic. destruct (at_stage h); try (exists []; by rewrite app_nil_r).
    destruct (forallb _ _); [|exists []; by rewrite app_nil_r].
    assert (Forall (fun e => is_warning e = false) (start_messages (logicCores h)))
      as Hstart.
    { eapply Forall_impl; [apply start_messages_kind|]. intros e. apply start_not_warning. }
    unfold after_logic_cores. case_bool_decide; cbn.
    - eexists. rewrite <- !(assoc_L (++)). split; [done|].
      apply Forall_app. split; [done|]. by repeat constructor.
    - match goal with |- context [advanceTick ?k] =>
        destruct (decide (TypedArray.cells (workersRunning (world k)) 0 = 0)) as [E|E];
          [rewrite (advanceTick_swapped _ E)|rewrite (advanceTick_missed _ E)] end; cbn.
      + eexists. rewrite <- !(assoc_L (++)). split; [done|].
        apply Forall_app. split; [done|]. by repeat constructor.
      + eexists. rewrite <- !(assoc_L (++)). split; [done|].
        apply Forall_app. split; [done|]. by repeat constructor. }
  eexists. rewrite <- (assoc_L (++)). split; [done|]. by apply Forall_app.
Qed.

Lemma listener_no_warning cbs m h :
  exists es, effects (report (listener cbs m h).2 (listener cbs m h).1) = effects h ++ es /\
             Forall (fun e => is_warning e = false) es.
Proof.
  unfold listener. destruct (_ && _); cbn.
  { eexists. split; [done|]. by repeat constructor. }
  destruct (get_property _ _) as [[|i|]| |]; cbn.
  - unfold invoke. cbn. eexists. split; [done|]. by repeat constructor.
  - unfold invoke. cbn. eexists. split; [done|]. by repeat constructor.
  - exists []. by rewrite app_nil_r.
  - destruct (call_inherited _ _) as [|e]; cbn.
    + exists []. by rewrite app_nil_r.
    + eexists. split; [done|]. by repeat constructor.
  - destruct (defined (error m)); cbn.
    + eexists. split; [done|]. by repeat constructor.
    + eexists. rewrite <- (assoc_L (++)). split; [done|]. by repeat constructor.
Qed.

Lemma handle_event_no_warning h e :
  exists es, effects (handle_event h e) = effects h ++ es /\
             Forall (fun e => is_warning e = false) es.
Proof.
  destruct e as [w m| |v].
  - cbn [handle_event]. destruct (exists_worker h w); [|exists []; by rewrite app_nil_r].
    destruct (listener_no_warning (callbacks_of w) m h) as (es & Hes & Hquiet).
    destruct (listener (callbacks_of w) m h) as [h1 c]. cbn [fst snd] in Hes.
    destruct (resume_no_warning (report c h1)) as (es' & -> & Hquiet').
    exists (es ++ es'). rewrite Hes, <- (assoc_L (++)). split; [done|]. by apply Forall_app.
  - cbn. destruct (frameLoop h); [|exists []; by rewrite app_nil_r].
    destruct (decide (TypedArray.cells (workersRunning (world h)) 0 = 0)) as [E|E];
      [rewrite (advanceTick_swapped _ E)|rewrite (advanceTick_missed _ E)]; cbn.
    + eexists. split; [done|]. by repeat constructor.
    + exists []. by rewrite app_nil_r.
  - exists []. cbn. by rewrite app_nil_r.
Qed.

(** X16: the warning of line 15 is written where [Atomics.waitAsync] is
    missing and nowhere else, it is the first thing the host does, and it is
    never written again: in every state the host reaches, what the host has
    done is the warning (or nothing, where [Atomics.waitAsync] exists)
    followed by effects none of which is a warning. *)
Theorem warning_is_first_and_written_once env trace :
  let h := run (main env) trace in
  exists rest,
    effects h = waitAsync_warning env ++ rest /\
    Forall (fun e => is_warning e = false) rest /\
    length (List.filter is_warning (effects h))
      = if Atomics_waitAsync env then 0%nat else 1%nat.
Proof.
  cbv zeta.
  assert (exists rest, effects (run (main env) trace) = waitAsync_warning env ++ rest /\
                       Forall (fun e => is_warning e = false) rest) as (rest & Heff & Hrest).
  { induction trace as [|e trace (rest & Heff & Hrest)] using rev_ind.
    - change (run (main env) []) with (main env). unfold main. cbv zeta.
      destruct (JS.Array_length _); [|exists []; by rewrite app_nil_r].
      match goal with |- context [resume ?k] =>
        destruct (resume_no_warning k) as (es & -> & Hes) end.
      by exists es.
    - rewrite run_snoc.
      destruct (handle_event_no_warning (run (main env) trace) e) as (es & -> & Hes).
      exists (rest ++ es). rewrite Heff, <- (assoc_L (++)). split; [done|].
      by apply Forall_app. }
  exists rest. split_and!; [done..|].
  rewrite Heff, List.filter_app, (filter_none _ _ Hrest), app_nil_r.
  unfold waitAsync_warning. by destruct (Atomics_waitAsync env).
Qed.
